(** * Recipe API: user manager and recipe / attribute view sets

    A shallow embedding of [core/models.py] and [recipe/views.py].

    - Python values that flow through keyword dictionaries are a small
      dynamically typed [value]; dictionaries are [gmap string _].
    - Raising code returns a [result]: [Ok v] or [Raise e].
    - A query set is the list of rows the database would produce, joins
      included (one row per matching link), so that [distinct] has real work
      to do.
    - Strings are sequences of 8-bit characters. The text operations
      ([int], [strip], [lower], [repr]) are Python's on ASCII text
      ([Py.is_ascii]); the properties that depend on what they do to a
      string are stated for ASCII strings. *)

From Stdlib Require Import ZArith Ascii DecimalString.
From stdpp Require Import base gmap strings list sorting.

Local Open Scope Z_scope.

(** ** Exceptions and results *)

Inductive exn : Type :=
  | ValueError (msg : string)
  | TypeError (msg : string)
  | IntegrityError (msg : string)
  | ValidationError (detail : gmap string (list string))  (* rest_framework *)
  | DjangoValidationError (message : string)              (* django.core *)
  | Http404.

Inductive result (A : Type) : Type :=
  | Ok (a : A)
  | Raise (e : exn).
Arguments Ok {A} a.
Arguments Raise {A} e.

Definition bind {A B} (r : result A) (k : A → result B) : result B :=
  match r with
  | Ok a => k a
  | Raise e => Raise e
  end.

Notation "x <- r ;; k" := (bind r (fun x => k))
  (at level 100, r at next level, right associativity, only parsing).

(** A list comprehension whose body may raise: the first failure wins. *)
Fixpoint traverse {A B} (f : A → result B) (l : list A) : result (list B) :=
  match l with
  | [] => Ok []
  | a :: l' => b <- f a ;; bs <- traverse f l' ;; Ok (b :: bs)
  end.

Definition is_ValidationError (e : exn) : Prop :=
  match e with ValidationError _ | DjangoValidationError _ => True | _ => False end.

Definition is_ValueError (e : exn) : Prop :=
  match e with ValueError _ => True | _ => False end.

(** ** Python values and builtins *)

Inductive value : Type :=
  | VNone
  | VBool (b : bool)
  | VInt (z : Z)
  | VStr (s : string)
  | VRef (pk : Z).   (* a model instance, identified by its primary key *)

Global Instance value_eq_dec : EqDecision value.
Proof. solve_decision. Defined.

Module Py.

(** [str.isspace] on one ASCII character: tab to carriage return, the
    separators 28 to 31 and the space. *)
Definition isspace (c : ascii) : bool :=
  let n := N_of_ascii c in
  ((9 <=? n) && (n <=? 13) || (28 <=? n) && (n <=? 32))%N.

Fixpoint lstrip (s : string) : string :=
  match s with
  | String c s' => if isspace c then lstrip s' else s
  | EmptyString => EmptyString
  end.

Definition rstrip (s : string) : string :=
  String.rev (lstrip (String.rev s)).

Definition strip (s : string) : string := rstrip (lstrip s).

(** [s.split(sep)] for a one-character separator: never the empty list. *)
Fixpoint split (sep : ascii) (s : string) : list string :=
  match s with
  | EmptyString => [EmptyString]
  | String c s' =>
      if decide (c = sep) then EmptyString :: split sep s'
      else match split sep s' with
           | w :: ws => String c w :: ws
           | [] => [String c EmptyString]
           end
  end.

(** [s.rsplit(sep, 1)] when it yields two parts, i.e. [sep] occurs. *)
Fixpoint rsplit1 (sep : ascii) (s : string) : option (string * string) :=
  match s with
  | EmptyString => None
  | String c s' =>
      match rsplit1 sep s' with
      | Some (a, b) => Some (String c a, b)
      | None => if decide (c = sep) then Some (EmptyString, s') else None
      end
  end.

(** [str.lower] on ASCII text. *)
Definition lower_char (c : ascii) : ascii :=
  let n := N_of_ascii c in
  if ((65 <=? n) && (n <=? 90))%N then ascii_of_N (n + 32) else c.

Fixpoint lower (s : string) : string :=
  match s with
  | EmptyString => EmptyString
  | String c s' => String (lower_char c) (lower s')
  end.

(** Text all of whose characters are ASCII. *)
Fixpoint is_ascii (s : string) : bool :=
  match s with
  | EmptyString => true
  | String c s' => (N_of_ascii c <? 128)%N && is_ascii s'
  end.

(** The blanks [int()] skips around a literal: tab to carriage return and
    the space. The separators 28 to 31, blanks for [str.strip], are none
    for [int()]. *)
Definition isblank (c : ascii) : bool :=
  let n := N_of_ascii c in
  ((9 <=? n) && (n <=? 13) || (n =? 32))%N.

Fixpoint lskip (s : string) : string :=
  match s with
  | String c s' => if isblank c then lskip s' else s
  | EmptyString => EmptyString
  end.

Definition skip_blanks (s : string) : string :=
  String.rev (lskip (String.rev (lskip s))).

Definition digit (c : ascii) : option Z :=
  let n := N_of_ascii c in
  if ((48 <=? n) && (n <=? 57))%N then Some (Z.of_N n - 48) else None.

(** The digits of an integer literal after the first one; single
    underscores may separate digits. [us] records that the previous
    character was an underscore, [n] counts the digits read. *)
Fixpoint int_digits (acc : Z) (n : N) (us : bool) (s : string) : option (Z * N) :=
  match s with
  | EmptyString => if us then None else Some (acc, n)
  | String c s' =>
      if decide (c = "_"%char) then
        if us then None else int_digits acc n true s'
      else match digit c with
           | Some d => int_digits (10 * acc + d) (n + 1) false s'
           | None => None
           end
  end.

Definition int_literal (s : string) : option (Z * N) :=
  match s with
  | EmptyString => None
  | String c s' =>
      match digit c with
      | Some d => int_digits d 1 false s'
      | None => None
      end
  end.

(** A well-formed base-10 literal: surrounding blanks, an optional sign,
    then the digits; with its value and its number of digits. *)
Definition int_syntax (s : string) : option (Z * N) :=
  match skip_blanks s with
  | String "-" body => prod_map Z.opp id <$> int_literal body
  | String "+" body => int_literal body
  | body => int_literal body
  end.

(** [sys.get_int_max_str_digits()], at its default. *)
Definition max_str_digits : N := 4300.

(** The value [int(s)] returns for a string, base 10, if it returns. *)
Definition parse_int (s : string) : option Z :=
  match int_syntax s with
  | Some (z, n) => if (max_str_digits <? n)%N then None else Some z
  | None => None
  end.

Fixpoint contains (c : ascii) (s : string) : bool :=
  match s with
  | EmptyString => false
  | String d s' => bool_decide (d = c) || contains c s'
  end.

Definition hexdigit (n : N) : ascii :=
  if (n <? 10)%N then ascii_of_N (48 + n) else ascii_of_N (87 + n).

Definition backslash : ascii := ascii_of_N 92.
Definition quote1 : ascii := ascii_of_N 39.
Definition quote2 : ascii := ascii_of_N 34.

(** [repr(s)] of a string, as it is on ASCII text: quoted, with the quote,
    the backslash and the control characters escaped. *)
Definition repr_char (quote c : ascii) : string :=
  let n := N_of_ascii c in
  if bool_decide (c = quote) || bool_decide (c = backslash) then
    String backslash (String c EmptyString)
  else if (n =? 9)%N then String backslash "t"
  else if (n =? 10)%N then String backslash "n"
  else if (n =? 13)%N then String backslash "r"
  else if ((n <? 32) || (n =? 127))%N then
    String backslash (String "x" (String (hexdigit (n / 16))
                                    (String (hexdigit (n mod 16)) EmptyString)))
  else String c EmptyString.

Fixpoint repr_body (quote : ascii) (s : string) : string :=
  match s with
  | EmptyString => EmptyString
  | String c s' => repr_char quote c +:+ repr_body quote s'
  end.

Definition repr (s : string) : string :=
  let quote := if contains quote1 s && negb (contains quote2 s) then quote2 else quote1 in
  String quote (repr_body quote s +:+ String quote EmptyString).

Definition decimal (n : N) : string := NilZero.string_of_uint (N.to_uint n).

(** The text of the [ValueError] [int(s)] raises when it does: a
    well-formed literal is refused for its length only; anything else is
    an invalid literal, shown by the first 200 characters of its [repr]. *)
Definition int_error (s : string) : string :=
  match int_syntax s with
  | Some (_, n) =>
      "Exceeds the limit (" +:+ decimal max_str_digits
      +:+ " digits) for integer string conversion: value has " +:+ decimal n
      +:+ " digits; use sys.set_int_max_str_digits() to increase the limit"
  | None =>
      "invalid literal for int() with base 10: " +:+ String.substring 0 200 (repr s)
  end.

Definition int (s : string) : result Z :=
  match parse_int s with
  | Some z => Ok z
  | None => Raise (ValueError (int_error s))
  end.

(** Truthiness of a string. *)
Definition truthy (s : string) : bool :=
  match s with EmptyString => false | _ => true end.

End Py.

(** ** core/models.py *)

(** [os.path.splitext(p)[1]] on POSIX paths: the extension starts at the
    last dot of the last path component, leading dots of that component do
    not count. *)
Module os_path.

(** [p.rfind(c)], with [-1] when [c] does not occur. *)
Fixpoint rfind_from (i : Z) (c : ascii) (p : string) : Z :=
  match p with
  | EmptyString => -1
  | String d p' =>
      let r := rfind_from (i + 1) c p' in
      if decide (r = -1) then (if decide (d = c) then i else -1) else r
  end.
Definition rfind (c : ascii) (p : string) : Z := rfind_from 0 c p.

Definition slice (from to : Z) (p : string) : string :=
  String.substring (Z.to_nat from) (Z.to_nat (to - from)) p.

Fixpoint all_dots (s : string) : bool :=
  match s with
  | EmptyString => true
  | String c s' => bool_decide (c = "."%char) && all_dots s'
  end.

Definition splitext (p : string) : string * string :=
  let sepIndex := rfind "/" p in
  let dotIndex := rfind "." p in
  if bool_decide (dotIndex > sepIndex)
     && negb (all_dots (slice (sepIndex + 1) dotIndex p))
  then (slice 0 dotIndex p, slice dotIndex (Z.of_nat (String.length p)) p)
  else (p, EmptyString).

Definition join3 (a b c : string) : string := a +:+ "/" +:+ b +:+ "/" +:+ c.

End os_path.

(** [recipe_image_file_path(instance, filepath)]; [uuid] is the text of the
    identifier [uuid.uuid4()] draws. *)
Definition recipe_image_file_path (uuid : string) (filepath : string) : string :=
  let ext := (os_path.splitext filepath).2 in
  let filename := uuid +:+ ext in
  os_path.join3 "uploads" "recipe" filename.

(** A [User] instance is its attribute dictionary. *)
Abbreviation User := (gmap string value).

Module UserModel.

(** Concrete fields: [id]; [password], [last_login] (AbstractBaseUser);
    [is_superuser] (PermissionsMixin); and the four declared in the
    source. *)
Definition fields : list string :=
  ["id"; "password"; "last_login"; "is_superuser";
   "email"; "name"; "is_active"; "is_staff"].

Definition defaults : User :=
  list_to_map
    [("id", VNone); ("password", VStr ""); ("last_login", VNone);
     ("is_superuser", VBool false); ("email", VStr ""); ("name", VStr "");
     ("is_active", VBool true); ("is_staff", VBool false)].

(** The model constructor called with keywords: a keyword that names no
    field is a [TypeError]; fields not given take their defaults. *)
Definition init (kwargs : gmap string value) : result User :=
  if bool_decide (dom kwargs ⊆ list_to_set fields)
  then Ok (kwargs ∪ defaults)
  else Raise (TypeError "User() got unexpected keyword arguments").

(** [BooleanField.to_python]. *)
Definition to_python_bool (v : value) : option bool :=
  match v with
  | VBool b => Some b
  | VInt 1 => Some true
  | VInt 0 => Some false
  | VStr s =>
      if bool_decide (s ∈ ["t"; "True"; "1"]) then Some true
      else if bool_decide (s ∈ ["f"; "False"; "0"]) then Some false
      else None
  | _ => None
  end.

(** [BooleanField.get_prep_value]: [None] is passed on, anything else goes
    through [to_python], whose refusal is a validation error. *)
Definition check_bool (field : string) (u : User) : result unit :=
  match u !! field with
  | Some VNone | None => Ok tt
  | Some v =>
      match to_python_bool v with
      | Some _ => Ok tt
      | None => Raise (DjangoValidationError (field +:+ ": value must be either True or False."))
      end
  end.

(** [DateTimeField.get_prep_value] on the nullable [last_login]: [None] is
    passed on, text is parsed, anything else is not text to parse.
    [is_datetime] is the framework's reading of date-time text. *)
Definition check_datetime (is_datetime : string → bool) (field : string) (u : User)
    : result unit :=
  match u !! field with
  | Some VNone | None => Ok tt
  | Some (VStr s) =>
      if is_datetime s then Ok tt
      else Raise (DjangoValidationError (field +:+ ": value has an invalid format."))
  | Some _ => Raise (TypeError "fromisoformat: argument must be str")
  end.

(** A column declared without [null=True] refuses [None]; any other value
    of a text column is stored as its text. *)
Definition not_null (field : string) (u : User) : result unit :=
  match u !! field with
  | Some VNone | None =>
      Raise (IntegrityError ("NOT NULL constraint failed: core_user." +:+ field))
  | Some _ => Ok tt
  end.

(** The primary key an instance carries, as the integer column sees it. *)
Definition pk_of (u : User) : result (option Z) :=
  match u !! "id" with
  | Some VNone | None => Ok None
  | Some (VInt k) => Ok (Some k)
  | Some (VBool b) => Ok (Some (Z.b2z b))
  | Some (VStr s) =>
      match Py.parse_int s with
      | Some k => Ok (Some k)
      | None =>
          Raise (ValueError ("Field 'id' expected a number but got " +:+ Py.repr s +:+ "."))
      end
  | Some (VRef _) => Raise (TypeError "Field 'id' expected a number but got an object.")
  end.

Definition has_pk (k : Z) (row : User) : bool :=
  bool_decide (row !! "id" = Some (VInt k)).

Definition fresh_pk (table : list User) : Z :=
  1 + foldr (λ row m, match row !! "id" with Some (VInt k) => Z.max k m | _ => m end) 0 table.

(** [user.save()]: the values are prepared for their columns in column
    order, which is where a value of the wrong kind is refused; the
    database then refuses [None] in a column that is not nullable and a
    second row with the same [email] (declared [unique=True]); the row is
    updated when its primary key is stored already and inserted
    otherwise. *)
Definition save (is_datetime : string → bool) (table : list User) (u : User)
    : result (list User * User) :=
  pk <- pk_of u ;;
  _ <- check_datetime is_datetime "last_login" u ;;
  _ <- check_bool "is_superuser" u ;;
  _ <- check_bool "is_active" u ;;
  _ <- check_bool "is_staff" u ;;
  _ <- not_null "password" u ;;
  _ <- not_null "is_superuser" u ;;
  _ <- not_null "email" u ;;
  _ <- not_null "name" u ;;
  _ <- not_null "is_active" u ;;
  _ <- not_null "is_staff" u ;;
  let k := from_option id (fresh_pk table) pk in
  let others := filter (λ row, ¬ has_pk k row) table in
  if bool_decide (Exists (λ row, row !! "email" = u !! "email") others)
  then Raise (IntegrityError "UNIQUE constraint failed: core_user.email")
  else
    let u' := <["id" := VInt k]> u in
    if bool_decide (Exists (λ row, has_pk k row) table)
    then Ok ((λ row, if has_pk k row then u' else row) <$> table, u')
    else Ok (table ++ [u'], u').

End UserModel.

Section UserManager.

(** The framework's password hasher ([make_password]); [None] yields an
    unusable credential. *)
Variable make_password : option string → string.

(** The framework's reading of date-time text, for the one column of that
    kind. *)
Variable is_datetime : string → bool.

(** [BaseUserManager.normalize_email]. *)
Definition normalize_email (email : string) : string :=
  match Py.rsplit1 "@" (Py.strip email) with
  | Some (email_name, domain_part) => email_name +:+ "@" +:+ Py.lower domain_part
  | None => email
  end.

(** [AbstractBaseUser.set_password]. *)
Definition set_password (user : User) (raw_password : option string) : User :=
  <["password" := VStr (make_password raw_password)]> user.

(** [self.model(email=email, **extra_fields)]; repeating the keyword
    [email] is a [TypeError] of the call itself. *)
Definition model (email : string) (extra_fields : gmap string value) : result User :=
  match extra_fields !! "email" with
  | Some _ => Raise (TypeError "got multiple values for keyword argument 'email'")
  | None => UserModel.init (<["email" := VStr email]> extra_fields)
  end.

Definition create_user (db : list User) (email : string)
    (password : option string) (extra_fields : gmap string value)
    : result (list User * User) :=
  if negb (Py.truthy email) then
    Raise (ValueError "User must have an email address.")
  else
    let email := normalize_email email in
    user <- model email extra_fields ;;
    let user := set_password user password in
    UserModel.save is_datetime db user.

(** [d.setdefault(k, v)], for its effect on [d]. *)
Definition setdefault (k : string) (v : value) (d : gmap string value)
    : gmap string value :=
  match d !! k with
  | Some _ => d
  | None => <[k := v]> d
  end.

Definition create_superuser (db : list User) (email : string)
    (password : option string) (extra_fields : gmap string value)
    : result (list User * User) :=
  let extra_fields := setdefault "is_staff" (VBool true) extra_fields in
  let extra_fields := setdefault "is_superuser" (VBool true) extra_fields in
  if bool_decide (extra_fields !! "is_staff" ≠ Some (VBool true)) then
    Raise (ValueError "Superuser must have is_staff=True.")
  else if bool_decide (extra_fields !! "is_superuser" ≠ Some (VBool true)) then
    Raise (ValueError "Superuser must have is_superuser=True.")
  else
    create_user db email password extra_fields.

End UserManager.

(** *** Recipe, Tag and Ingredient rows *)

Module Recipe.
Record t : Type := mk {
  id : Z;
  title : string;
  description : string;
  time_minutes : Z;
  price : Z;                 (* hundredths: two decimal places *)
  link : string;
  user : Z;                  (* foreign key to the owner *)
  image : option string;
}.
Global Instance eq_dec : EqDecision t.
Proof. solve_decision. Defined.
End Recipe.

Module Tag.
Record t : Type := mk { id : Z; name : string; user : Z }.
Global Instance eq_dec : EqDecision t.
Proof. solve_decision. Defined.
End Tag.

Module Ingredient.
Record t : Type := mk { id : Z; name : string; user : Z }.
Global Instance eq_dec : EqDecision t.
Proof. solve_decision. Defined.
End Ingredient.

(** What the attribute view set needs of its model: [Tag] and [Ingredient]
    both have a key, a name and an owner. *)
Class RecipeAttr (A : Type) := {
  attr_eq_dec :: EqDecision A;
  attr_id : A → Z;
  attr_name : A → string;
  attr_user : A → Z;
}.

Global Instance Tag_attr : RecipeAttr Tag.t :=
  {| attr_id := Tag.id; attr_name := Tag.name; attr_user := Tag.user |}.
Global Instance Ingredient_attr : RecipeAttr Ingredient.t :=
  {| attr_id := Ingredient.id; attr_name := Ingredient.name;
     attr_user := Ingredient.user |}.

(** The tables. The two many-to-many fields of [Recipe] are stored as
    association tables of (recipe id, tag id) and (recipe id, ingredient id)
    pairs. *)
Record DB : Type := mkDB {
  recipes : list Recipe.t;
  tags : list Tag.t;
  ingredients : list Ingredient.t;
  recipe_tags : list (Z * Z);
  recipe_ingredients : list (Z * Z);
}.

(** ** recipe/views.py *)

Module Request.
Record t : Type := mk {
  user : Z;                              (* the authenticated caller *)
  query_params : gmap string string;     (* what [query_params.get] sees *)
  data : gmap string value;
}.
End Request.

Module status.
Definition HTTP_200_OK : Z := 200.
Definition HTTP_400_BAD_REQUEST : Z := 400.
End status.

Module Response.
Inductive body : Type :=
  | Representation (fields : gmap string value)
  | FieldErrors (errors : gmap string (list string)).
Record t : Type := mk { data : body; status : Z }.
End Response.

(** What becomes of a handler's result: [APIView.handle_exception] turns
    API exceptions and 404 into responses through
    [rest_framework.views.exception_handler] and re-raises everything else,
    which the server answers with an internal error. *)
Definition exception_handler (e : exn) : option Response.t :=
  match e with
  | ValidationError detail => Some (Response.mk (Response.FieldErrors detail) 400)
  | Http404 =>
      Some (Response.mk (Response.Representation {[ "detail" := VStr "Not found." ]}) 404)
  | _ => None
  end.

Inductive outcome (A : Type) : Type :=
  | Returned (a : A)
  | ErrorResponse (r : Response.t)
  | ServerError (e : exn).
Arguments Returned {A} a.
Arguments ErrorResponse {A} r.
Arguments ServerError {A} e.

Definition dispatch {A} (r : result A) : outcome A :=
  match r with
  | Ok a => Returned a
  | Raise e =>
      match exception_handler e with
      | Some response => ErrorResponse response
      | None => ServerError e
      end
  end.

(** *** Query sets *)

Module QuerySet.

(** [filter(<m2m>__id__in=ids)]: the join with the association table
    [through], one row per link whose far side is listed. *)
Definition filter_m2m_id_in (through : list (Z * Z)) (ids : list Z)
    (qs : list Recipe.t) : list Recipe.t :=
  r ← qs;
  l ← through;
  if bool_decide (l.1 = Recipe.id r ∧ l.2 ∈ ids) then [r] else [].

(** [filter(recipe__isnull=False)] on an attribute table: the join with
    the association table, one row per link to the attribute. *)
Definition filter_recipe_notnull `{RecipeAttr A} (through : list (Z * Z))
    (qs : list A) : list A :=
  a ← qs;
  l ← through;
  if bool_decide (l.2 = attr_id a) then [a] else [].

(** The order of [order_by("-<field>")] on an integer and on a text
    column. *)
Definition desc {A} (key : A → Z) : relation A := λ a b, key b ≤ key a.
Definition desc_str {A} (key : A → string) : relation A :=
  λ a b, String.le (key b) (key a).

Global Instance desc_dec {A} (key : A → Z) : RelDecision (desc key).
Proof. intros a b. unfold desc. apply _. Defined.
Global Instance desc_str_dec {A} (key : A → string) : RelDecision (desc_str key).
Proof. intros a b. unfold desc_str. apply _. Defined.

Definition order_by_desc {A} (key : A → Z) (qs : list A) : list A :=
  merge_sort (desc key) qs.

Definition order_by_desc_str {A} (key : A → string) (qs : list A) : list A :=
  merge_sort (desc_str key) qs.

Definition distinct `{EqDecision A} (qs : list A) : list A := remove_dups qs.

End QuerySet.

(** *** RecipeViewset *)

Module RecipeViewset.

Definition _params_to_ints (qs : string) : result (list Z) :=
  traverse Py.int (Py.split "," qs).

Definition get_queryset (db : DB) (request : Request.t) : result (list Recipe.t) :=
  let tags := Request.query_params request !! "tags" in
  let ingredients := Request.query_params request !! "ingredients" in
  let queryset := recipes db in
  queryset <-
    match tags with
    | Some tags =>
        if Py.truthy tags then
          tag_ids <- _params_to_ints tags ;;
          Ok (QuerySet.filter_m2m_id_in (recipe_tags db) tag_ids queryset)
        else Ok queryset
    | None => Ok queryset
    end ;;
  queryset <-
    match ingredients with
    | Some ingredients =>
        if Py.truthy ingredients then
          ingredient_ids <- _params_to_ints ingredients ;;
          Ok (QuerySet.filter_m2m_id_in (recipe_ingredients db) ingredient_ids queryset)
        else Ok queryset
    | None => Ok queryset
    end ;;
  Ok (QuerySet.distinct
        (QuerySet.order_by_desc Recipe.id
           (filter (λ r, Recipe.user r = Request.user request) queryset))).

Inductive serializer_class : Type :=
  RecipeSerializer | RecipeImageSerializer | RecipeDetailSerializer.

Definition get_serializer_class (action : string) : serializer_class :=
  if bool_decide (action = "list") then RecipeSerializer
  else if bool_decide (action = "upload_image") then RecipeImageSerializer
  else RecipeDetailSerializer.

(** [GenericAPIView.get_object]: the row of [get_queryset] with the given
    primary key, or 404. *)
Definition get_object (db : DB) (request : Request.t) (pk : Z) : result Recipe.t :=
  queryset <- get_queryset db request ;;
  match List.find (λ r, bool_decide (Recipe.id r = pk)) queryset with
  | Some r => Ok r
  | None => Raise Http404
  end.

(** [perform_create] hands the validated fields to the serializer, whose
    [save] merges its keyword arguments over them and calls [create]. *)

Definition text_field (k : string) (d : gmap string value) : result string :=
  match d !! k with
  | None => Ok EmptyString
  | Some (VStr s) => Ok s
  | Some _ => Raise (TypeError k)
  end.

Definition number_field (k : string) (d : gmap string value) : result Z :=
  match d !! k with
  | Some (VInt z) => Ok z
  | None | Some VNone => Raise (IntegrityError ("NOT NULL constraint failed: " +:+ k))
  | Some _ => Raise (TypeError k)
  end.

Definition owner_field (d : gmap string value) : result Z :=
  match d !! "user" with
  | Some (VRef u) => Ok u
  | None | Some VNone => Raise (IntegrityError "NOT NULL constraint failed: user_id")
  | Some _ => Raise (TypeError "user")
  end.

Definition fresh_id (rs : list Recipe.t) : Z :=
  1 + foldr (λ r m, Z.max (Recipe.id r) m) 0 rs.

(** Modelled from the spec: the recipe serializer's [create]
    (recipe/serializers.py is not among the sources) persists a new recipe
    from the fields it is given, under a newly assigned integer id and with
    no image; the row's owner is the [user] entry of those fields. *)
Definition serializer_create (db : DB) (validated_data : gmap string value)
    : result (DB * Recipe.t) :=
  title <- text_field "title" validated_data ;;
  description <- text_field "description" validated_data ;;
  time_minutes <- number_field "time_minutes" validated_data ;;
  price <- number_field "price" validated_data ;;
  link <- text_field "link" validated_data ;;
  owner <- owner_field validated_data ;;
  let recipe :=
    Recipe.mk (fresh_id (recipes db)) title description time_minutes price
              link owner None in
  Ok (mkDB (recipes db ++ [recipe]) (tags db) (ingredients db)
           (recipe_tags db) (recipe_ingredients db), recipe).

(** [BaseSerializer.save] without an instance: keyword arguments win
    over validated fields of the same name. *)
Definition serializer_save (db : DB) (validated_data kwargs : gmap string value)
    : result (DB * Recipe.t) :=
  serializer_create db (kwargs ∪ validated_data).

Definition perform_create (db : DB) (request : Request.t)
    (validated_data : gmap string value) : result (DB * Recipe.t) :=
  serializer_save db validated_data {[ "user" := VRef (Request.user request) ]}.

Section upload_image.

(** Modelled from the spec: the image-only serializer
    (recipe/serializers.py is not among the sources). Its validation of
    the submitted payload either yields the uploaded image, by file
    name, or field-level errors. *)
Variable image_validation :
  gmap string value → string + gmap string (list string).

(** The identifier [uuid.uuid4()] draws when the file is stored. *)
Variable uuid : string.

Record serializer : Type := get_serializer {
  instance : Recipe.t;
  initial_data : gmap string value;
}.

Definition is_valid (s : serializer) : bool :=
  match image_validation (initial_data s) with
  | inl _ => true
  | inr _ => false
  end.

Definition errors (s : serializer) : gmap string (list string) :=
  match image_validation (initial_data s) with
  | inl _ => ∅
  | inr e => e
  end.

Definition set_image (r : Recipe.t) (image : option string) : Recipe.t :=
  Recipe.mk (Recipe.id r) (Recipe.title r) (Recipe.description r)
            (Recipe.time_minutes r) (Recipe.price r) (Recipe.link r)
            (Recipe.user r) image.

(** [serializer.save()] with an instance: the validated image is stored
    under its generated path and the instance's row is rewritten. *)
Definition save (db : DB) (s : serializer) : DB * Recipe.t :=
  match image_validation (initial_data s) with
  | inl file =>
      let saved := set_image (instance s) (Some (recipe_image_file_path uuid file)) in
      (mkDB ((λ r, if bool_decide (Recipe.id r = Recipe.id saved) then saved else r)
               <$> recipes db)
            (tags db) (ingredients db) (recipe_tags db) (recipe_ingredients db),
       saved)
  | inr _ => (db, instance s)
  end.

(** Modelled from the spec: the "image-only representation". *)
Definition serializer_data (r : Recipe.t) : gmap string value :=
  {[ "id" := VInt (Recipe.id r);
     "image" := from_option VStr VNone (Recipe.image r) ]}.

Definition upload_image (db : DB) (request : Request.t) (pk : Z)
    : result (DB * Response.t) :=
  recipe <- get_object db request pk ;;
  let serializer := get_serializer recipe (Request.data request) in
  if is_valid serializer then
    let '(db, saved) := save db serializer in
    Ok (db, Response.mk (Response.Representation (serializer_data saved))
                        status.HTTP_200_OK)
  else
    Ok (db, Response.mk (Response.FieldErrors (errors serializer))
                        status.HTTP_400_BAD_REQUEST).

End upload_image.

End RecipeViewset.

(** *** BaseRecipeAttrViewSet and its two instances *)

Module BaseRecipeAttrViewSet.

(** [queryset] is the class attribute a subclass sets; [through] is the
    association table behind its reverse relation [recipe]. *)
Definition get_queryset `{RecipeAttr A} (queryset : list A)
    (through : list (Z * Z)) (request : Request.t) : result (list A) :=
  n <- match Request.query_params request !! "assigned_only" with
       | Some s => Py.int s
       | None => Ok 0
       end ;;
  let assigned_only := bool_decide (n ≠ 0) in
  let queryset :=
    if assigned_only then QuerySet.filter_recipe_notnull through queryset
    else queryset in
  Ok (QuerySet.distinct
        (QuerySet.order_by_desc_str attr_name
           (filter (λ a, attr_user a = Request.user request) queryset))).

End BaseRecipeAttrViewSet.

Module TagViewSet.
Definition get_queryset (db : DB) (request : Request.t) : result (list Tag.t) :=
  BaseRecipeAttrViewSet.get_queryset (tags db) (recipe_tags db) request.
End TagViewSet.

Module IngredientViewSet.
Definition get_queryset (db : DB) (request : Request.t) : result (list Ingredient.t) :=
  BaseRecipeAttrViewSet.get_queryset (ingredients db) (recipe_ingredients db) request.
End IngredientViewSet.

(** ** Notions used to state the properties *)

(** [s.count(c)] for one character. *)
Fixpoint count_char (c : ascii) (s : string) : nat :=
  match s with
  | EmptyString => O
  | String d s' => (if decide (d = c) then 1 else 0)%nat + count_char c s'
  end.

(** Strings written one after the other with [sep] between them. *)
Fixpoint join (sep : ascii) (toks : list string) : string :=
  match toks with
  | [] => EmptyString
  | [tok] => tok
  | tok :: toks' => tok +:+ String sep (join sep toks')
  end.

(** The comma-separated tokens of a parameter value: the pieces, none
    holding a comma, that the value is made of with commas between them. *)
Definition tokens (s : string) (toks : list string) : Prop :=
  toks ≠ [] ∧ Forall (λ tok, count_char "," tok = O) toks ∧ s = join "," toks.

(** The identifiers a request supplies under the query parameter [key]:
    [Some ids] when the parameter is present, not empty, ASCII text, and
    its comma-separated tokens are, one for one and in order, integer
    literals of the [ids]; [None] when it is absent or empty. *)
Definition supplies (request : Request.t) (key : string) (ids : option (list Z)) : Prop :=
  match ids with
  | Some ids =>
      ∃ s toks, Request.query_params request !! key = Some s ∧ s ≠ EmptyString ∧
                Py.is_ascii s = true ∧ tokens s toks ∧
                Forall2 (λ tok id, Py.parse_int tok = Some id) toks ids
  | None =>
      Request.query_params request !! key = None ∨
      Request.query_params request !! key = Some EmptyString
  end.

(** Recipe [r] references one of the listed identifiers through the
    association table; no list, no constraint. *)
Definition references (through : list (Z * Z)) (r : Recipe.t) (ids : option (list Z)) : Prop :=
  match ids with
  | Some ids => ∃ t, t ∈ ids ∧ (Recipe.id r, t) ∈ through
  | None => True
  end.

(** The query parameter [key] is present, not empty, ASCII text, and one
    of its comma-separated tokens is not an integer literal. *)
Definition malformed (request : Request.t) (key : string) : Prop :=
  ∃ s toks tok, Request.query_params request !! key = Some s ∧ s ≠ EmptyString ∧
                Py.is_ascii s = true ∧ tokens s toks ∧
                tok ∈ toks ∧ Py.parse_int tok = None.

(** Attribute with key [aid] is attached to some recipe of the table, and
    to some recipe of the table owned by [owner]. *)
Definition attached (db : DB) (through : list (Z * Z)) (aid : Z) : Prop :=
  ∃ r, r ∈ recipes db ∧ (Recipe.id r, aid) ∈ through.
Definition attached_to_recipe_of (db : DB) (through : list (Z * Z)) (owner aid : Z) : Prop :=
  ∃ r, r ∈ recipes db ∧ Recipe.user r = owner ∧ (Recipe.id r, aid) ∈ through.

(** The attribute list [outcome] succeeds with rows that are exactly the
    attributes satisfying [P], without repetition, names descending. *)
Definition lists_exactly `{RecipeAttr A} (outcome : result (list A)) (P : A → Prop) : Prop :=
  ∃ rows, outcome = Ok rows ∧ NoDup rows ∧
          StronglySorted (QuerySet.desc_str attr_name) rows ∧
          ∀ a, a ∈ rows ↔ P a.

(** Every link of an association table starts at a stored recipe. *)
Definition links_to_recipes (db : DB) (through : list (Z * Z)) : Prop :=
  ∀ l, l ∈ through → ∃ r, r ∈ recipes db ∧ Recipe.id r = l.1.

(** One of the two optional narrowing steps of
    [RecipeViewset.get_queryset], as it appears there. *)
Definition narrowed (through : list (Z * Z)) (param : option string)
    (queryset : list Recipe.t) : result (list Recipe.t) :=
  match param with
  | Some p =>
      if Py.truthy p then
        ids <- RecipeViewset._params_to_ints p ;;
        Ok (QuerySet.filter_m2m_id_in through ids queryset)
      else Ok queryset
  | None => Ok queryset
  end.

(** Extra fields the model constructor and [save] accept: no [email]
    keyword, field names only, no primary key, no [last_login] other than
    [None], text within the declared length for [name], and booleans for
    the flags; each only if it is given. *)
Definition flag_ok (extra_fields : gmap string value) (flag : string) : Prop :=
  extra_fields !! flag = None ∨ ∃ b, extra_fields !! flag = Some (VBool b).

Definition name_ok (extra_fields : gmap string value) : Prop :=
  extra_fields !! "name" = None ∨
  ∃ s, extra_fields !! "name" = Some (VStr s) ∧ (String.length s ≤ 255)%nat.

Definition accepted (extra_fields : gmap string value) : Prop :=
  extra_fields !! "email" = None ∧
  dom extra_fields ⊆ list_to_set UserModel.fields ∧
  extra_fields !! "id" = None ∧
  (extra_fields !! "last_login" = None ∨
   extra_fields !! "last_login" = Some VNone) ∧
  name_ok extra_fields ∧
  flag_ok extra_fields "is_superuser" ∧
  flag_ok extra_fields "is_active" ∧
  flag_ok extra_fields "is_staff".

(** An e-mail address the model of the text operations is exact on and the
    column holds: ASCII text whose normal form is within the declared
    length. *)
Definition plain_address (email : string) : Prop :=
  Py.is_ascii email = true ∧ (String.length (normalize_email email) ≤ 255)%nat.

(** A user instance whose columns [save] prepares without complaint: no
    primary key yet, no last login, text in the text columns and booleans
    in the flags. *)
Definition prepared (u : User) : Prop :=
  u !! "id" = Some VNone ∧
  u !! "last_login" = Some VNone ∧
  (∃ s, u !! "password" = Some (VStr s)) ∧
  (∃ s, u !! "email" = Some (VStr s)) ∧
  (∃ s, u !! "name" = Some (VStr s)) ∧
  (∃ b, u !! "is_superuser" = Some (VBool b)) ∧
  (∃ b, u !! "is_active" = Some (VBool b)) ∧
  (∃ b, u !! "is_staff" = Some (VBool b)).

(** No stored user has the e-mail address [email]. *)
Definition email_free (db : list User) (email : string) : Prop :=
  Forall (λ row, row !! "email" ≠ Some (VStr email)) db.

(** Validated recipe fields as the create serializer passes them on: text
    for the text fields that are present, integers for the two required
    numbers. Nothing is asked of a [user] entry. *)
Definition text_ok (d : gmap string value) (k : string) : Prop :=
  d !! k = None ∨ ∃ s, d !! k = Some (VStr s).

Definition validated_recipe (d : gmap string value) : Prop :=
  text_ok d "title" ∧ text_ok d "description" ∧ text_ok d "link" ∧
  (∃ t, d !! "time_minutes" = Some (VInt t)) ∧
  (∃ p, d !! "price" = Some (VInt p)).

(** Two optional identifier lists name the same identifiers. *)
Definition same_ids (ids1 ids2 : option (list Z)) : Prop :=
  match ids1, ids2 with
  | Some l1, Some l2 => ∀ t, t ∈ l1 ↔ t ∈ l2
  | None, None => True
  | _, _ => False
  end.

(** ** Sample data: two users, their recipes, tags and ingredients *)

Module Sample.

Definition alice : Z := 1.
Definition bob : Z := 2.

Definition soup : Recipe.t := Recipe.mk 1 "Soup" "" 20 450 "" alice None.
Definition curry : Recipe.t := Recipe.mk 2 "Curry" "" 30 900 "" alice None.
Definition stew : Recipe.t := Recipe.mk 3 "Stew" "" 40 700 "" bob None.

Definition vegan : Tag.t := Tag.mk 10 "vegan" alice.
Definition dinner : Tag.t := Tag.mk 11 "dinner" alice.
Definition lunch : Tag.t := Tag.mk 12 "lunch" bob.
Definition spicy : Tag.t := Tag.mk 13 "spicy" alice.
Definition dessert : Tag.t := Tag.mk 14 "dessert" alice.

Definition salt : Ingredient.t := Ingredient.mk 20 "salt" alice.
Definition pepper : Ingredient.t := Ingredient.mk 21 "pepper" bob.
Definition basil : Ingredient.t := Ingredient.mk 22 "basil" alice.

(** Bob's stew carries Alice's tag [spicy] and her ingredient [basil]:
    the schema does not forbid links across owners. *)
Definition db : DB :=
  mkDB [soup; curry; stew]
       [vegan; dinner; lunch; spicy; dessert]
       [salt; pepper; basil]
       [(1, 10); (1, 11); (2, 11); (3, 12); (3, 13)]
       [(1, 20); (2, 20); (3, 21); (3, 22)].

Definition get (caller : Z) (params : list (string * string)) : Request.t :=
  Request.mk caller (list_to_map params) ∅.

Definition users : list User :=
  [ list_to_map [("id", VInt 1); ("email", VStr "alice@example.com")] ].

(** A stand-in hasher: the algorithm name in front of the password. *)
Definition make_password (raw : option string) : string :=
  match raw with
  | Some p => "plain$" +:+ p
  | None => "!unusable"
  end.

(** A stand-in reader of date-time text: the length of
    [YYYY-MM-DD HH:MM:SS]. *)
Definition is_datetime (s : string) : bool :=
  bool_decide (String.length s = 19%nat).

(** A stand-in image validation: the payload must carry a file name under
    [image]. *)
Definition image_validation (payload : gmap string value)
    : string + gmap string (list string) :=
  match payload !! "image" with
  | Some (VStr file) => inl file
  | _ => inr {[ "image" := ["No file was submitted."] ]}
  end.

Definition post (caller : Z) (payload : list (string * value)) : Request.t :=
  Request.mk caller ∅ (list_to_map payload).

End Sample.

(** * Properties *)

(** ** Builtins on examples *)

Example int_plain : Py.int "12" = Ok 12.
Proof. reflexivity. Qed.
Example int_signed_spaces : Py.int " -3 " = Ok (-3).
Proof. reflexivity. Qed.
Example int_underscore : Py.int "1_000" = Ok 1000.
Proof. reflexivity. Qed.
Example int_separator_not_blank :
  Py.int (String (ascii_of_N 28) "12")
  = Raise (ValueError "invalid literal for int() with base 10: '\x1c12'").
Proof. reflexivity. Qed.
Example int_not_a_number :
  Py.int "it's"
  = Raise (ValueError ("invalid literal for int() with base 10: "
                       +:+ String Py.quote2 ("it's" +:+ String Py.quote2 ""))).
Proof. reflexivity. Qed.
Example int_empty : Py.parse_int "" = None.
Proof. reflexivity. Qed.
Example int_trailing_underscore : Py.parse_int "1_" = None.
Proof. reflexivity. Qed.
Example split_commas : Py.split "," "1,,2" = ["1"; ""; "2"].
Proof. reflexivity. Qed.
Example split_empty : Py.split "," "" = [""].
Proof. reflexivity. Qed.
Example rsplit1_last : Py.rsplit1 "@" "a@b@C.org" = Some ("a@b", "C.org").
Proof. reflexivity. Qed.

Example image_path_jpg :
  recipe_image_file_path "u-1" "holiday/photo.JPG" = "uploads/recipe/u-1.JPG".
Proof. reflexivity. Qed.
Example image_path_hidden :
  recipe_image_file_path "u-1" ".bashrc" = "uploads/recipe/u-1".
Proof. reflexivity. Qed.


(** ** Query-set facts shared by the view sets *)

Section queryset_facts.

Context {A : Type} `{EqDecision A}.

Lemma elem_of_distinct (qs : list A) (x : A) :
  x ∈ QuerySet.distinct qs ↔ x ∈ qs.
Proof. apply elem_of_remove_dups. Qed.

Lemma NoDup_distinct (qs : list A) : NoDup (QuerySet.distinct qs).
Proof. apply NoDup_remove_dups. Qed.

(** Dropping repeated rows keeps an ordered query set ordered. *)
Lemma StronglySorted_distinct (R : relation A) (qs : list A) :
  StronglySorted R qs → StronglySorted R (QuerySet.distinct qs).
Proof.
  unfold QuerySet.distinct.
  induction 1 as [|x l Hl IH Hx]; simpl; [constructor|].
  case_decide; [done|].
  constructor; [done|].
  rewrite Forall_forall in Hx |- *.
  intros y Hy. apply Hx. by apply elem_of_remove_dups.
Qed.

Lemma elem_of_order_by_desc (key : A → Z) (qs : list A) (x : A) :
  x ∈ QuerySet.order_by_desc key qs ↔ x ∈ qs.
Proof. unfold QuerySet.order_by_desc. by rewrite merge_sort_Permutation. Qed.

Lemma elem_of_order_by_desc_str (key : A → string) (qs : list A) (x : A) :
  x ∈ QuerySet.order_by_desc_str key qs ↔ x ∈ qs.
Proof. unfold QuerySet.order_by_desc_str. by rewrite merge_sort_Permutation. Qed.

Global Instance desc_trans (key : A → Z) : Transitive (QuerySet.desc key).
Proof. unfold QuerySet.desc. intros a b c ??. lia. Qed.
Global Instance desc_total (key : A → Z) : Total (QuerySet.desc key).
Proof. unfold QuerySet.desc. intros a b. lia. Qed.

Global Instance desc_str_trans (key : A → string) : Transitive (QuerySet.desc_str key).
Proof. unfold QuerySet.desc_str. intros a b c ??. by etrans. Qed.
Global Instance desc_str_total (key : A → string) : Total (QuerySet.desc_str key).
Proof. unfold QuerySet.desc_str. intros a b. apply (total String.le). Qed.

Lemma sorted_order_by_desc (key : A → Z) (qs : list A) :
  StronglySorted (QuerySet.desc key) (QuerySet.order_by_desc key qs).
Proof. apply StronglySorted_merge_sort; apply _. Qed.

Lemma sorted_order_by_desc_str (key : A → string) (qs : list A) :
  StronglySorted (QuerySet.desc_str key) (QuerySet.order_by_desc_str key qs).
Proof. apply StronglySorted_merge_sort; apply _. Qed.

(** With a key that identifies rows, an ordered duplicate-free query set
    is strictly descending. *)
Lemma StronglySorted_desc_strict (key : A → Z) (qs : list A) :
  NoDup (key <$> qs) →
  StronglySorted (QuerySet.desc key) qs →
  StronglySorted (λ a b, key b < key a) qs.
Proof.
  intros Hnd Hs. induction Hs as [|x l Hl IH Hx]; [constructor|].
  rewrite fmap_cons in Hnd. apply NoDup_cons in Hnd as [Hx' Hnd].
  constructor; [by apply IH|].
  rewrite Forall_forall in Hx |- *. intros y Hy.
  specialize (Hx y Hy). unfold QuerySet.desc in Hx.
  assert (key y ≠ key x); [|lia].
  intros Heq. apply Hx'. rewrite <- Heq. by apply list_elem_of_fmap_2.
Qed.

End queryset_facts.

(** Rows drawn without repetition from a table whose key column is unique
    have pairwise different keys. *)
Lemma NoDup_key_sub {A} (key : A → Z) (table rows : list A) :
  NoDup (key <$> table) → NoDup rows → rows ⊆ table → NoDup (key <$> rows).
Proof.
  intros Ht Hr Hsub. apply NoDup_fmap_2_strong; [|done].
  intros x y Hx Hy Heq.
  apply Hsub in Hx, Hy.
  apply list_elem_of_lookup in Hx as [i Hi], Hy as [j Hj].
  assert (i = j) as ->; [|congruence].
  eapply NoDup_lookup; [exact Ht|..]; rewrite list_lookup_fmap.
  - by rewrite Hi.
  - by rewrite Hj, Heq.
Qed.

Lemma elem_of_filter_m2m_id_in through ids qs (r : Recipe.t) :
  r ∈ QuerySet.filter_m2m_id_in through ids qs ↔
  r ∈ qs ∧ ∃ t, t ∈ ids ∧ (Recipe.id r, t) ∈ through.
Proof.
  unfold QuerySet.filter_m2m_id_in. rewrite list_elem_of_bind. split.
  - intros (r' & Hin & Hr'). apply list_elem_of_bind in Hin as ([rid t] & Hin & Hl).
    case_bool_decide as Hd; [|by apply not_elem_of_nil in Hin].
    apply list_elem_of_singleton in Hin as ->. simpl in Hd. destruct Hd as [-> Ht].
    split; [done|]. by exists t.
  - intros (Hr & t & Ht & Hl). exists r. split; [|done].
    apply list_elem_of_bind. exists (Recipe.id r, t). split; [|done].
    rewrite bool_decide_eq_true_2 by done. by apply list_elem_of_singleton.
Qed.

Lemma elem_of_filter_recipe_notnull `{RecipeAttr A} through qs (a : A) :
  a ∈ QuerySet.filter_recipe_notnull through qs ↔
  a ∈ qs ∧ ∃ rid, (rid, attr_id a) ∈ through.
Proof.
  unfold QuerySet.filter_recipe_notnull. rewrite list_elem_of_bind. split.
  - intros (a' & Hin & Ha'). apply list_elem_of_bind in Hin as ([rid t] & Hin & Hl).
    case_bool_decide as Hd; [|by apply not_elem_of_nil in Hin].
    apply list_elem_of_singleton in Hin as ->. simpl in Hd. subst t.
    split; [done|]. by exists rid.
  - intros (Ha & rid & Hl). exists a. split; [|done].
    apply list_elem_of_bind. exists (rid, attr_id a). split; [|done].
    rewrite bool_decide_eq_true_2 by done. by apply list_elem_of_singleton.
Qed.

(** ** The recipe list: how [get_queryset] narrows the table *)

Lemma get_queryset_unfold db request :
  RecipeViewset.get_queryset db request =
    (qs1 <- narrowed (recipe_tags db) (Request.query_params request !! "tags") (recipes db) ;;
     qs2 <- narrowed (recipe_ingredients db)
                     (Request.query_params request !! "ingredients") qs1 ;;
     Ok (QuerySet.distinct
           (QuerySet.order_by_desc Recipe.id
              (filter (λ r, Recipe.user r = Request.user request) qs2)))).
Proof. reflexivity. Qed.

Lemma truthy_nonempty s : s ≠ EmptyString → Py.truthy s = true.
Proof. by destruct s. Qed.

Lemma traverse_Ok_Forall2 {A B} (f : A → result B) (l : list A) (ys : list B) :
  traverse f l = Ok ys ↔ Forall2 (λ x y, f x = Ok y) l ys.
Proof.
  revert ys. induction l as [|x l IH]; intros ys; simpl.
  - split; [intros [= <-]; constructor|by inversion 1].
  - destruct (f x) as [y|e] eqn:Hx; simpl.
    + destruct (traverse f l) as [ys'|e] eqn:Hl; simpl.
      * split.
        -- intros [= <-]. constructor; [done|]. by apply IH.
        -- inversion 1 as [|? y' ? ys'' Hy Hrest]; subst.
           rewrite Hx in Hy. injection Hy as <-.
           apply IH in Hrest. by injection Hrest as <-.
      * split; [done|]. inversion 1 as [|? y' ? ys'' Hy Hrest]; subst.
        by apply IH in Hrest.
    + split; [done|]. inversion 1 as [|? y' ? ys'' Hy Hrest]; subst. congruence.
Qed.

Lemma traverse_app {A B} (f : A → result B) (l1 l2 : list A) :
  traverse f (l1 ++ l2)
  = (xs <- traverse f l1 ;; ys <- traverse f l2 ;; Ok (xs ++ ys)).
Proof.
  induction l1 as [|x l1 IH]; simpl.
  - by destruct (traverse f l2).
  - destruct (f x); simpl; [|done]. rewrite IH.
    destruct (traverse f l1); simpl; [|done].
    by destruct (traverse f l2).
Qed.

Lemma split_nonempty sep s : Py.split sep s ≠ [].
Proof. destruct s as [|c s]; simpl; [done|]. case_decide; [done|]. by destruct (Py.split sep s). Qed.

Lemma split_app_sep sep a b :
  Py.split sep (a +:+ String sep b) = Py.split sep a ++ Py.split sep b.
Proof.
  unfold String.app. induction a as [|c a IH]; simpl.
  - by rewrite decide_True.
  - rewrite IH. case_decide; [done|].
    destruct (Py.split sep a) eqn:Ha; [by apply split_nonempty in Ha|done].
Qed.

Lemma length_split sep s : length (Py.split sep s) = S (count_char sep s).
Proof.
  induction s as [|c s IH]; simpl; [done|].
  case_decide; simpl; [by rewrite IH|].
  destruct (Py.split sep s) eqn:Hs; [by apply split_nonempty in Hs|].
  simpl in *. done.
Qed.

Lemma int_Ok_parse tok z : Py.int tok = Ok z ↔ Py.parse_int tok = Some z.
Proof.
  unfold Py.int. destruct (Py.parse_int tok); split; intros H; by simplify_eq.
Qed.

(** [split] undoes [join] on comma-free tokens: the tokens of a parameter
    value are what [str.split] returns. *)
Lemma split_no_sep sep s : count_char sep s = O → Py.split sep s = [s].
Proof.
  induction s as [|c s IH]; simpl; [done|].
  case_decide; [done|]. intros Hs. by rewrite IH.
Qed.

Lemma split_join sep toks :
  toks ≠ [] → Forall (λ tok, count_char sep tok = O) toks →
  Py.split sep (join sep toks) = toks.
Proof.
  intros Hne Hall. induction Hall as [|tok toks Htok Hall IH]; [done|].
  destruct toks as [|tok' toks]; [by apply split_no_sep|].
  change (join sep (tok :: tok' :: toks))
    with (tok +:+ String sep (join sep (tok' :: toks))).
  rewrite split_app_sep, IH, split_no_sep by done. done.
Qed.

Lemma tokens_split s toks : tokens s toks → Py.split "," s = toks.
Proof. intros (Hne & Hall & ->). by apply split_join. Qed.

(** A concrete parameter value supplies its identifiers: the tokens are
    named and every condition is checked by evaluation. *)
Ltac supplies_some s toks :=
  exists s, toks;
  split; [reflexivity|];
  split; [discriminate|];
  split; [reflexivity|];
  split; [split; [discriminate|split; [repeat constructor|reflexivity]]|];
  repeat constructor.

Lemma narrowed_supplies request key ids through qs :
  supplies request key ids →
  ∃ qs', narrowed through (Request.query_params request !! key) qs = Ok qs' ∧
         ∀ r, r ∈ qs' ↔ r ∈ qs ∧ references through r ids.
Proof.
  destruct ids as [ids|]; simpl.
  - intros (s & toks & -> & Hne & _ & Htoks & Hids). unfold narrowed.
    assert (RecipeViewset._params_to_ints s = Ok ids) as ->.
    { unfold RecipeViewset._params_to_ints.
      rewrite (tokens_split _ _ Htoks). apply traverse_Ok_Forall2.
      eapply Forall2_impl; [exact Hids|]. intros tok id. by rewrite int_Ok_parse. }
    rewrite truthy_nonempty by done. simpl.
    eexists; split; [done|]. intros r. apply elem_of_filter_m2m_id_in.
  - intros [-> | ->]; simpl; (eexists; split; [done|]);
      (intros r; split; [by intros ?|by intros [? _]]).
Qed.

Lemma narrowed_subseteq through param qs qs' :
  narrowed through param qs = Ok qs' → qs' ⊆ qs.
Proof.
  unfold narrowed. destruct param as [p|]; [|by intros [= ->]].
  destruct (Py.truthy p); [|by intros [= ->]].
  destruct (RecipeViewset._params_to_ints p) as [ids|e]; simpl; [|done].
  intros [= <-] r Hr. by apply elem_of_filter_m2m_id_in in Hr as [? _].
Qed.

Lemma traverse_int_ValueError (toks : list string) e :
  traverse Py.int toks = Raise e → is_ValueError e.
Proof.
  induction toks as [|tok toks IH]; simpl; [done|].
  unfold Py.int at 1. destruct (Py.parse_int tok); simpl.
  - destruct (traverse Py.int toks); simpl; [done|]. intros [= <-]. by apply IH.
  - by intros [= <-].
Qed.

Lemma traverse_int_bad_token (toks : list string) tok :
  tok ∈ toks → Py.parse_int tok = None →
  ∃ e, traverse Py.int toks = Raise e ∧ is_ValueError e.
Proof.
  intros Hin Hbad.
  destruct (traverse Py.int toks) as [ids|e] eqn:Ht.
  - exfalso. revert ids Ht. induction Hin as [tok toks|tok tok' toks Hin IH];
      intros ids; simpl.
    + unfold Py.int at 1. by rewrite Hbad.
    + destruct (Py.int tok'); simpl; [|done].
      destruct (traverse Py.int toks) eqn:Ht'; simpl; [|done]. intros _. by eapply IH.
  - exists e. split; [done|]. by eapply traverse_int_ValueError.
Qed.

Lemma narrowed_ValueError through param qs e :
  narrowed through param qs = Raise e → is_ValueError e.
Proof.
  unfold narrowed. destruct param as [p|]; [|done].
  destruct (Py.truthy p); [|done].
  destruct (RecipeViewset._params_to_ints p) as [ids|e'] eqn:Hp; simpl; [done|].
  intros [= <-]. by eapply traverse_int_ValueError.
Qed.

Lemma narrowed_malformed request key through qs :
  malformed request key →
  ∃ e, narrowed through (Request.query_params request !! key) qs = Raise e ∧
       is_ValueError e.
Proof.
  intros (s & toks & tok & -> & Hne & _ & Htoks & Htok & Hbad). unfold narrowed.
  rewrite truthy_nonempty by done.
  destruct (traverse_int_bad_token _ _ Htok Hbad) as (e & He & Hv).
  unfold RecipeViewset._params_to_ints.
  rewrite (tokens_split _ _ Htoks), He. by exists e.
Qed.

(** The rows [get_queryset] returns are rows of the table owned by the
    caller. *)
Lemma get_queryset_rows db request rows r :
  RecipeViewset.get_queryset db request = Ok rows → r ∈ rows →
  r ∈ recipes db ∧ Recipe.user r = Request.user request.
Proof.
  rewrite get_queryset_unfold.
  destruct (narrowed _ _ (recipes db)) as [qs1|] eqn:H1; simpl; [|done].
  destruct (narrowed _ _ qs1) as [qs2|] eqn:H2; simpl; [|done].
  intros [= <-] Hr.
  apply elem_of_distinct, elem_of_order_by_desc, list_elem_of_filter in Hr as [Hu Hr].
  split; [|done].
  by eapply narrowed_subseteq, narrowed_subseteq.
Qed.

(** The same for the attribute view set. *)
Lemma attr_get_queryset_rows `{RecipeAttr A} (queryset : list A) through request rows a :
  BaseRecipeAttrViewSet.get_queryset queryset through request = Ok rows → a ∈ rows →
  a ∈ queryset ∧ attr_user a = Request.user request.
Proof.
  unfold BaseRecipeAttrViewSet.get_queryset.
  destruct (match Request.query_params request !! "assigned_only" with
            | Some s => Py.int s | None => Ok 0 end) as [n|]; simpl; [|done].
  intros [= <-] Ha.
  apply elem_of_distinct, elem_of_order_by_desc_str, list_elem_of_filter in Ha as [Hu Ha].
  split; [|done].
  case_bool_decide; [|done].
  by apply elem_of_filter_recipe_notnull in Ha as [? _].
Qed.

(** What [get_queryset] returns for parameters that convert: rows without
    repetition, ids strictly descending, membership as below. *)
Lemma get_queryset_exact db request tag_ids ingredient_ids :
  NoDup (Recipe.id <$> recipes db) →
  supplies request "tags" tag_ids →
  supplies request "ingredients" ingredient_ids →
  ∃ rows,
    RecipeViewset.get_queryset db request = Ok rows ∧
    NoDup rows ∧
    StronglySorted (λ a b, Recipe.id b < Recipe.id a) rows ∧
    ∀ r, r ∈ rows ↔
         r ∈ recipes db ∧ Recipe.user r = Request.user request ∧
         references (recipe_tags db) r tag_ids ∧
         references (recipe_ingredients db) r ingredient_ids.
Proof.
  intros Hkey Htags Hings.
  destruct (narrowed_supplies _ _ _ (recipe_tags db) (recipes db) Htags)
    as (qs1 & H1 & Hqs1).
  destruct (narrowed_supplies _ _ _ (recipe_ingredients db) qs1 Hings)
    as (qs2 & H2 & Hqs2).
  rewrite get_queryset_unfold, H1. simpl. rewrite H2. simpl.
  set (rows := QuerySet.distinct _).
  assert (∀ r, r ∈ rows ↔
               r ∈ recipes db ∧ Recipe.user r = Request.user request ∧
               references (recipe_tags db) r tag_ids ∧
               references (recipe_ingredients db) r ingredient_ids) as Hmem.
  { intros r. unfold rows.
    rewrite elem_of_distinct, elem_of_order_by_desc, list_elem_of_filter, Hqs2, Hqs1.
    tauto. }
  exists rows. split; [done|]. split; [apply NoDup_distinct|]. split; [|done].
  apply StronglySorted_desc_strict.
  - eapply NoDup_key_sub; [exact Hkey|apply NoDup_distinct|].
    intros r Hr. by apply Hmem in Hr as [? _].
  - apply StronglySorted_distinct, sorted_order_by_desc.
Qed.

(** A stored recipe of the caller that the narrowing parameters keep
    resolves under its id. *)
Lemma get_object_listed db request tag_ids ingredient_ids recipe :
  NoDup (Recipe.id <$> recipes db) →
  supplies request "tags" tag_ids →
  supplies request "ingredients" ingredient_ids →
  recipe ∈ recipes db → Recipe.user recipe = Request.user request →
  references (recipe_tags db) recipe tag_ids →
  references (recipe_ingredients db) recipe ingredient_ids →
  RecipeViewset.get_object db request (Recipe.id recipe) = Ok recipe.
Proof.
  intros Hkey Htags Hings Hin Hu Hrt Hri.
  destruct (get_queryset_exact db request _ _ Hkey Htags Hings)
    as (rows & Hq & _ & _ & Hmem).
  unfold RecipeViewset.get_object. rewrite Hq. simpl.
  destruct (List.find _ rows) as [r|] eqn:Hf.
  - apply find_some in Hf as [Hr Hid].
    apply list_elem_of_In, Hmem in Hr as [Hr _].
    apply bool_decide_eq_true_1 in Hid. f_equal.
    apply list_elem_of_lookup in Hr as [i Hi], Hin as [j Hj].
    assert (i = j) as ->; [|congruence].
    eapply NoDup_lookup; [exact Hkey|..]; rewrite list_lookup_fmap.
    + by rewrite Hi.
    + by rewrite Hj, Hid.
  - exfalso. eapply find_none in Hf.
    + by rewrite bool_decide_eq_true_2 in Hf.
    + by apply list_elem_of_In, Hmem.
Qed.

(** ** Owner scoping of the three list endpoints *)

(** C1. For distinct users A and B and any database state, whatever the
    query parameters, every row the recipe, tag and ingredient list query
    sets return to A is a stored row owned by A, hence none is owned by B. *)
Theorem list_owner_scoped (db : DB) (request : Request.t) (A B : Z) :
  A ≠ B → Request.user request = A →
  (∀ rows r, RecipeViewset.get_queryset db request = Ok rows → r ∈ rows →
     r ∈ recipes db ∧ Recipe.user r = A ∧ Recipe.user r ≠ B) ∧
  (∀ rows t, TagViewSet.get_queryset db request = Ok rows → t ∈ rows →
     t ∈ tags db ∧ Tag.user t = A ∧ Tag.user t ≠ B) ∧
  (∀ rows i, IngredientViewSet.get_queryset db request = Ok rows → i ∈ rows →
     i ∈ ingredients db ∧ Ingredient.user i = A ∧ Ingredient.user i ≠ B).
Proof.
  intros Hne <-. split; [|split].
  - intros rows r Hq Hr.
    destruct (get_queryset_rows _ _ _ _ Hq Hr) as [Hin Hu].
    by rewrite Hu.
  - intros rows t Hq Ht.
    destruct (attr_get_queryset_rows (tags db) _ _ _ _ Hq Ht) as [Hin Hu].
    simpl in Hu. by rewrite Hu.
  - intros rows i Hq Hi.
    destruct (attr_get_queryset_rows (ingredients db) _ _ _ _ Hq Hi) as [Hin Hu].
    simpl in Hu. by rewrite Hu.
Qed.

Lemma list_owner_scoped_witness :
  let request := Sample.get Sample.alice [("tags", "10,11"); ("assigned_only", "1")] in
  Sample.alice ≠ Sample.bob ∧ Request.user request = Sample.alice ∧
  (∀ rows r, RecipeViewset.get_queryset Sample.db request = Ok rows → r ∈ rows →
     r ∈ recipes Sample.db ∧ Recipe.user r = Sample.alice ∧ Recipe.user r ≠ Sample.bob) ∧
  (∀ rows t, TagViewSet.get_queryset Sample.db request = Ok rows → t ∈ rows →
     t ∈ tags Sample.db ∧ Tag.user t = Sample.alice ∧ Tag.user t ≠ Sample.bob) ∧
  (∀ rows i, IngredientViewSet.get_queryset Sample.db request = Ok rows → i ∈ rows →
     i ∈ ingredients Sample.db ∧ Ingredient.user i = Sample.alice ∧
     Ingredient.user i ≠ Sample.bob).
Proof.
  intros request.
  assert (Sample.alice ≠ Sample.bob) as Hne by (by vm_compute).
  split; [exact Hne|]. split; [reflexivity|].
  exact (list_owner_scoped Sample.db request Sample.alice Sample.bob Hne eq_refl).
Defined.

(** ** Filtering the recipe list by tags and ingredients *)

(** C2. With unique recipe ids, when the [tags] and [ingredients]
    parameters are each either absent/empty or a comma-separated list that
    converts to identifiers, the recipe list query set returns exactly the
    caller-owned recipes that reference at least one listed tag and at least
    one listed ingredient (each condition only when its list is given),
    without repeated rows, in strictly descending order of id. *)
Theorem recipe_list_filtered (db : DB) (request : Request.t)
    (tag_ids ingredient_ids : option (list Z)) :
  NoDup (Recipe.id <$> recipes db) →
  supplies request "tags" tag_ids →
  supplies request "ingredients" ingredient_ids →
  ∃ rows,
    RecipeViewset.get_queryset db request = Ok rows ∧
    NoDup rows ∧
    StronglySorted (λ a b, Recipe.id b < Recipe.id a) rows ∧
    ∀ r, r ∈ rows ↔
         r ∈ recipes db ∧ Recipe.user r = Request.user request ∧
         references (recipe_tags db) r tag_ids ∧
         references (recipe_ingredients db) r ingredient_ids.
Proof.
  intros Hkey Htags Hings.
  destruct (narrowed_supplies _ _ _ (recipe_tags db) (recipes db) Htags)
    as (qs1 & H1 & Hqs1).
  destruct (narrowed_supplies _ _ _ (recipe_ingredients db) qs1 Hings)
    as (qs2 & H2 & Hqs2).
  rewrite get_queryset_unfold, H1. simpl. rewrite H2. simpl.
  eexists. split; [reflexivity|].
  assert (∀ r, r ∈ QuerySet.distinct (QuerySet.order_by_desc Recipe.id
                 (filter (λ r, Recipe.user r = Request.user request) qs2)) ↔
               r ∈ recipes db ∧ Recipe.user r = Request.user request ∧
               references (recipe_tags db) r tag_ids ∧
               references (recipe_ingredients db) r ingredient_ids) as Hmem.
  { intros r.
    rewrite elem_of_distinct, elem_of_order_by_desc, list_elem_of_filter, Hqs2, Hqs1.
    tauto. }
  split; [apply NoDup_distinct|]. split; [|exact Hmem].
  apply StronglySorted_desc_strict.
  - eapply NoDup_key_sub; [exact Hkey|apply NoDup_distinct|].
    intros r Hr. by apply Hmem in Hr as [? _].
  - apply StronglySorted_distinct, sorted_order_by_desc.
Qed.

Lemma recipe_list_filtered_witness :
  let request := Sample.get Sample.alice [("tags", "10,11"); ("ingredients", "20")] in
  NoDup (Recipe.id <$> recipes Sample.db) ∧
  supplies request "tags" (Some [10; 11]) ∧
  supplies request "ingredients" (Some [20]) ∧
  ∃ rows,
    RecipeViewset.get_queryset Sample.db request = Ok rows ∧
    NoDup rows ∧
    StronglySorted (λ a b, Recipe.id b < Recipe.id a) rows ∧
    ∀ r, r ∈ rows ↔
         r ∈ recipes Sample.db ∧ Recipe.user r = Request.user request ∧
         references (recipe_tags Sample.db) r (Some [10; 11]) ∧
         references (recipe_ingredients Sample.db) r (Some [20]).
Proof.
  intros request.
  assert (NoDup (Recipe.id <$> recipes Sample.db)) as Hkey
    by (apply (bool_decide_unpack _); vm_compute; exact I).
  assert (supplies request "tags" (Some [10; 11])) as Htags
    by (supplies_some "10,11" ["10"; "11"]).
  assert (supplies request "ingredients" (Some [20])) as Hings
    by (supplies_some "20" ["20"]).
  split; [exact Hkey|]. split; [exact Htags|]. split; [exact Hings|].
  exact (recipe_list_filtered Sample.db request _ _ Hkey Htags Hings).
Defined.

(** On the sample, both of Alice's recipes match [tags=10,11]; soup matches
    both listed tags and still comes once, after curry. *)
Example recipe_list_tags_sample :
  RecipeViewset.get_queryset Sample.db (Sample.get Sample.alice [("tags", "10,11")])
  = Ok [Sample.curry; Sample.soup].
Proof. reflexivity. Qed.


(** ** Empty and malformed query parameters *)

(** C9. A [tags] (or [ingredients]) parameter that is present but empty
    gives the same result as a request without it, whatever else the request
    carries: the truthiness test skips the conversion, which on the empty
    string would raise. *)
Theorem empty_param_as_absent (db : DB) (caller : Z)
    (params : gmap string string) (body : gmap string value) :
  RecipeViewset.get_queryset db (Request.mk caller (<["tags" := ""]> params) body)
    = RecipeViewset.get_queryset db (Request.mk caller (delete "tags" params) body) ∧
  RecipeViewset.get_queryset db (Request.mk caller (<["ingredients" := ""]> params) body)
    = RecipeViewset.get_queryset db (Request.mk caller (delete "ingredients" params) body) ∧
  (∃ e, RecipeViewset._params_to_ints "" = Raise e ∧ is_ValueError e).
Proof.
  split; [|split].
  - rewrite !get_queryset_unfold. simpl.
    rewrite lookup_insert_eq, lookup_delete_eq.
    rewrite lookup_insert_ne, lookup_delete_ne by done. reflexivity.
  - rewrite !get_queryset_unfold. simpl.
    rewrite lookup_insert_eq, lookup_delete_eq.
    rewrite lookup_insert_ne, lookup_delete_ne by done. reflexivity.
  - eexists. split; [reflexivity|exact I].
Qed.

(** On the sample, [tags=] lists all of Alice's recipes, as no parameter
    does. *)
Example empty_tags_sample :
  RecipeViewset.get_queryset Sample.db (Sample.get Sample.alice [("tags", "")])
  = Ok [Sample.curry; Sample.soup].
Proof. reflexivity. Qed.

(** C4, as the code has it. When the [tags] or the [ingredients] parameter
    is non-empty ASCII text and holds a token that is not an integer literal,
    [get_queryset] raises [ValueError]; nothing catches it and the exception
    handler has no response for it, so the request ends as a server error,
    not as a client-error response with field messages. *)
Theorem malformed_param_raises (db : DB) (request : Request.t) :
  malformed request "tags" ∨ malformed request "ingredients" →
  ∃ e, RecipeViewset.get_queryset db request = Raise e ∧ is_ValueError e ∧
       dispatch (RecipeViewset.get_queryset db request) = ServerError e.
Proof.
  intros Hbad.
  assert (∃ e, RecipeViewset.get_queryset db request = Raise e ∧ is_ValueError e)
    as (e & He & Hv).
  { rewrite get_queryset_unfold. destruct Hbad as [Hbad|Hbad].
    - destruct (narrowed_malformed _ _ (recipe_tags db) (recipes db) Hbad)
        as (e & -> & Hv). by exists e.
    - destruct (narrowed _ _ (recipes db)) as [qs1|e] eqn:H1; simpl.
      + destruct (narrowed_malformed _ _ (recipe_ingredients db) qs1 Hbad)
          as (e & -> & Hv). by exists e.
      + exists e. split; [done|]. by eapply narrowed_ValueError. }
  exists e. rewrite He. repeat split; [done|].
  by destruct e.
Qed.

Lemma malformed_param_raises_witness :
  let request := Sample.get Sample.alice [("tags", "10,x")] in
  (malformed request "tags" ∨ malformed request "ingredients") ∧
  ∃ e, RecipeViewset.get_queryset Sample.db request = Raise e ∧ is_ValueError e ∧
       dispatch (RecipeViewset.get_queryset Sample.db request) = ServerError e.
Proof.
  intros request.
  assert (malformed request "tags" ∨ malformed request "ingredients") as Hbad.
  { left. exists "10,x", ["10"; "x"], "x".
    split; [reflexivity|]. split; [discriminate|]. split; [reflexivity|].
    split; [split; [discriminate|split; [repeat constructor|reflexivity]]|].
    split; [|reflexivity]. apply (bool_decide_unpack _). vm_compute. exact I. }
  split; [exact Hbad|].
  exact (malformed_param_raises Sample.db request Hbad).
Defined.

(** C4 as stated fails: for [tags=10,x] the outcome is the uncaught
    [ValueError], and no error response is produced at all. *)
Lemma malformed_param_no_client_error :
  let request := Sample.get Sample.alice [("tags", "10,x")] in
  dispatch (RecipeViewset.get_queryset Sample.db request)
    = ServerError (ValueError "invalid literal for int() with base 10: 'x'") ∧
  ¬ ∃ response, dispatch (RecipeViewset.get_queryset Sample.db request)
                = ErrorResponse response.
Proof.
  intros request. split; [reflexivity|].
  intros [response Hr]. vm_compute in Hr. discriminate Hr.
Qed.

(** ** The attribute lists and [assigned_only] *)

Section attr_list.

Context `{RecipeAttr A}.

Lemma attr_list_int (queryset : list A) through request n :
  match Request.query_params request !! "assigned_only" with
  | Some s => Py.int s
  | None => Ok 0
  end = Ok n →
  lists_exactly (BaseRecipeAttrViewSet.get_queryset queryset through request)
    (λ a, a ∈ queryset ∧ attr_user a = Request.user request ∧
          (n ≠ 0 → ∃ rid, (rid, attr_id a) ∈ through)).
Proof.
  intros Hn. unfold lists_exactly, BaseRecipeAttrViewSet.get_queryset.
  rewrite Hn. simpl. eexists. split; [reflexivity|].
  split; [apply NoDup_distinct|].
  split; [apply StronglySorted_distinct, sorted_order_by_desc_str|].
  intros a. rewrite elem_of_distinct, elem_of_order_by_desc_str, list_elem_of_filter.
  case_bool_decide as Hz.
  - rewrite elem_of_filter_recipe_notnull. split.
    + intros (Hu & Ha & Hl). split; [done|]. split; [done|]. by intros _.
    + intros (Ha & Hu & Hl). split; [done|]. split; [done|]. by apply Hl.
  - split.
    + intros (Hu & Ha). split; [done|]. split; [done|]. by intros ?.
    + intros (Ha & Hu & _). by split.
Qed.

Lemma lists_exactly_iff (outcome : result (list A)) (P Q : A → Prop) :
  lists_exactly outcome P → (∀ a, P a ↔ Q a) → lists_exactly outcome Q.
Proof.
  intros (rows & Hq & Hnd & Hs & Hmem) HPQ.
  exists rows. split; [done|]. split; [done|]. split; [done|].
  intros a. by rewrite Hmem.
Qed.

End attr_list.

Lemma attached_link db through aid :
  links_to_recipes db through →
  (∃ rid, (rid, aid) ∈ through) ↔ attached db through aid.
Proof.
  intros Hfk. split.
  - intros [rid Hl]. destruct (Hfk _ Hl) as (r & Hr & Hid). simpl in Hid.
    exists r. by rewrite Hid.
  - intros (r & _ & Hl). by exists (Recipe.id r).
Qed.

(** C3, as the code has it. With [assigned_only=1] the tag (ingredient)
    list holds exactly the caller-owned tags (ingredients) attached to at
    least one recipe, whoever owns that recipe; with [assigned_only=0] or no
    such parameter it holds all caller-owned ones. In both cases rows are not
    repeated and come by name, descending. *)
Theorem attr_list_assigned_only (db : DB) (request : Request.t) :
  links_to_recipes db (recipe_tags db) →
  links_to_recipes db (recipe_ingredients db) →
  (Request.query_params request !! "assigned_only" = Some "1" →
     lists_exactly (TagViewSet.get_queryset db request)
       (λ t, t ∈ tags db ∧ Tag.user t = Request.user request ∧
             attached db (recipe_tags db) (Tag.id t)) ∧
     lists_exactly (IngredientViewSet.get_queryset db request)
       (λ i, i ∈ ingredients db ∧ Ingredient.user i = Request.user request ∧
             attached db (recipe_ingredients db) (Ingredient.id i))) ∧
  (Request.query_params request !! "assigned_only" = Some "0" ∨
   Request.query_params request !! "assigned_only" = None →
     lists_exactly (TagViewSet.get_queryset db request)
       (λ t, t ∈ tags db ∧ Tag.user t = Request.user request) ∧
     lists_exactly (IngredientViewSet.get_queryset db request)
       (λ i, i ∈ ingredients db ∧ Ingredient.user i = Request.user request)).
Proof.
  intros Htags Hings. split.
  - intros Hp.
    assert (match Request.query_params request !! "assigned_only" with
            | Some s => Py.int s | None => Ok 0 end = Ok 1) as Hn
      by (by rewrite Hp).
    split.
    + eapply lists_exactly_iff;
        [exact (attr_list_int (tags db) (recipe_tags db) request 1 Hn)|].
      intros t. simpl. rewrite <- (attached_link db _ _ Htags).
      split; (intros (? & ? & Hl); split; [done|]; split; [done|]);
        [by apply Hl|by intros _].
    + eapply lists_exactly_iff;
        [exact (attr_list_int (ingredients db) (recipe_ingredients db) request 1 Hn)|].
      intros i. simpl. rewrite <- (attached_link db _ _ Hings).
      split; (intros (? & ? & Hl); split; [done|]; split; [done|]);
        [by apply Hl|by intros _].
  - intros Hp.
    assert (match Request.query_params request !! "assigned_only" with
            | Some s => Py.int s | None => Ok 0 end = Ok 0) as Hn
      by (by destruct Hp as [-> | ->]).
    split.
    + eapply lists_exactly_iff;
        [exact (attr_list_int (tags db) (recipe_tags db) request 0 Hn)|].
      intros t. simpl. split; [by intros (? & ? & _)|].
      intros (? & ?). split; [done|]. split; [done|]. by intros ?.
    + eapply lists_exactly_iff;
        [exact (attr_list_int (ingredients db) (recipe_ingredients db) request 0 Hn)|].
      intros i. simpl. split; [by intros (? & ? & _)|].
      intros (? & ?). split; [done|]. split; [done|]. by intros ?.
Qed.

Lemma links_to_recipes_Forall db through :
  Forall (λ l, Exists (λ r, Recipe.id r = l.1) (recipes db)) through →
  links_to_recipes db through.
Proof.
  rewrite Forall_forall. intros Hall l Hl.
  apply Hall, Exists_exists in Hl as (r & Hr & Hid). by exists r.
Qed.

Lemma sample_links :
  links_to_recipes Sample.db (recipe_tags Sample.db) ∧
  links_to_recipes Sample.db (recipe_ingredients Sample.db).
Proof.
  split; apply links_to_recipes_Forall, (bool_decide_unpack _); vm_compute; exact I.
Defined.

Lemma attr_list_assigned_only_witness :
  let request := Sample.get Sample.alice [("assigned_only", "1")] in
  links_to_recipes Sample.db (recipe_tags Sample.db) ∧
  links_to_recipes Sample.db (recipe_ingredients Sample.db) ∧
  Request.query_params request !! "assigned_only" = Some "1" ∧
  lists_exactly (TagViewSet.get_queryset Sample.db request)
    (λ t, t ∈ tags Sample.db ∧ Tag.user t = Request.user request ∧
          attached Sample.db (recipe_tags Sample.db) (Tag.id t)) ∧
  lists_exactly (IngredientViewSet.get_queryset Sample.db request)
    (λ i, i ∈ ingredients Sample.db ∧ Ingredient.user i = Request.user request ∧
          attached Sample.db (recipe_ingredients Sample.db) (Ingredient.id i)).
Proof.
  intros request.
  destruct sample_links as [Htags Hings].
  split; [exact Htags|]. split; [exact Hings|]. split; [reflexivity|].
  exact (proj1 (attr_list_assigned_only Sample.db request Htags Hings) eq_refl).
Defined.

(** C3 as stated fails: Alice's tag [spicy] is attached to Bob's stew only,
    yet her [assigned_only=1] list shows it. *)
Lemma assigned_only_counts_foreign_recipes :
  let request := Sample.get Sample.alice [("assigned_only", "1")] in
  TagViewSet.get_queryset Sample.db request
    = Ok [Sample.vegan; Sample.spicy; Sample.dinner] ∧
  ¬ attached_to_recipe_of Sample.db (recipe_tags Sample.db) Sample.alice
      (Tag.id Sample.spicy).
Proof.
  intros request. split; [reflexivity|].
  intros (r & Hr & Hu & Hl).
  assert (r = Sample.soup ∨ r = Sample.curry ∨ r = Sample.stew) as Hcases.
  { simpl in Hr. rewrite !elem_of_cons in Hr.
    destruct Hr as [?|[?|[?|Hr]]]; [tauto..|]. by apply not_elem_of_nil in Hr. }
  destruct Hcases as [->|[->| ->]].
  - revert Hl. apply (bool_decide_eq_false_1 _). by vm_compute.
  - revert Hl. apply (bool_decide_eq_false_1 _). by vm_compute.
  - by vm_compute in Hu.
Qed.

(** Without the parameter the unattached [dessert] is listed too. *)
Example tag_list_all_sample :
  TagViewSet.get_queryset Sample.db (Sample.get Sample.alice [])
  = Ok [Sample.vegan; Sample.spicy; Sample.dinner; Sample.dessert].
Proof. reflexivity. Qed.

(** ** The user manager *)

Lemma rsplit1_app sep name domain :
  Py.rsplit1 sep domain = None →
  Py.rsplit1 sep (name +:+ String sep domain) = Some (name, domain).
Proof.
  intros Hd. induction name as [|c name IH].
  - unfold String.app. simpl. rewrite Hd. by rewrite decide_True.
  - unfold String.app in *. simpl. by rewrite IH.
Qed.

(** [normalize_email] lower-cases the part after the last [@] of the
    stripped address. *)
Lemma normalize_email_domain email name domain :
  Py.strip email = name +:+ "@" +:+ domain →
  Py.rsplit1 "@" domain = None →
  normalize_email email = name +:+ "@" +:+ Py.lower domain.
Proof.
  intros Hs Hd. unfold normalize_email. rewrite Hs.
  change ("@" +:+ domain) with (String "@" domain).
  by rewrite rsplit1_app.
Qed.

Section user_manager_facts.

Variable make_password : option string → string.
Variable is_datetime : string → bool.

Lemma create_user_empty db password extra_fields :
  create_user make_password is_datetime db "" password extra_fields
  = Raise (ValueError "User must have an email address.").
Proof. reflexivity. Qed.

Lemma create_user_nonempty db email password extra_fields :
  email ≠ EmptyString →
  create_user make_password is_datetime db email password extra_fields
  = (user <- model (normalize_email email) extra_fields ;;
     UserModel.save is_datetime db (set_password make_password user password)).
Proof. intros Hne. unfold create_user. by rewrite truthy_nonempty. Qed.

(** One step of a sequence that succeeds as a whole succeeded. *)
Ltac bind_Ok :=
  repeat match goal with
         | |- bind ?r _ = _ → _ => destruct r as [?|?]; simpl; [|done]
         end.

Lemma save_returns db u db' u' :
  UserModel.save is_datetime db u = Ok (db', u') →
  u' ∈ db' ∧ ∃ k, u' = <["id" := VInt k]> u.
Proof.
  unfold UserModel.save. bind_Ok.
  case_bool_decide; [done|].
  case_bool_decide as Hex; intros [= <- <-].
  - split; [|by eexists].
    apply Exists_exists in Hex as (row & Hrow & Hpk).
    apply list_elem_of_fmap. exists row. split; [|done].
    by destruct (UserModel.has_pk _ row).
  - split; [|by eexists]. apply elem_of_app. right. by apply list_elem_of_singleton.
Qed.

(** What a successful [create_user] returns. *)
Lemma create_user_returns db email password extra_fields db' u :
  create_user make_password is_datetime db email password extra_fields = Ok (db', u) →
  email ≠ EmptyString ∧ u ∈ db' ∧
  u !! "email" = Some (VStr (normalize_email email)) ∧
  u !! "password" = Some (VStr (make_password password)) ∧
  ∀ k, k ≠ "id" → k ≠ "password" → k ≠ "email" →
       u !! k = (extra_fields ∪ UserModel.defaults) !! k.
Proof.
  destruct (decide (email = EmptyString)) as [->|Hne]; [done|].
  rewrite create_user_nonempty by done.
  unfold model. destruct (extra_fields !! "email") eqn:He; [done|].
  unfold UserModel.init. case_bool_decide; simpl; [|done].
  intros Hs. apply save_returns in Hs as [Hin [k ->]].
  split; [done|]. split; [done|]. unfold set_password.
  split; [|split].
  - rewrite !lookup_insert_ne by done.
    apply lookup_union_Some_l. by rewrite lookup_insert_eq.
  - rewrite lookup_insert_ne by done. by rewrite lookup_insert_eq.
  - intros f ???. rewrite !lookup_insert_ne by done.
    rewrite !lookup_union. by rewrite lookup_insert_ne.
Qed.

Lemma check_bool_ok flag (u : User) b :
  u !! flag = Some (VBool b) → UserModel.check_bool flag u = Ok tt.
Proof. intros Hf. unfold UserModel.check_bool. by rewrite Hf. Qed.

Lemma not_null_ok field (u : User) v :
  u !! field = Some v → v ≠ VNone → UserModel.not_null field u = Ok tt.
Proof. intros Hf Hv. unfold UserModel.not_null. rewrite Hf. by destruct v. Qed.

Lemma flag_lookup (extra_fields : gmap string value) flag b0 :
  flag_ok extra_fields flag →
  UserModel.defaults !! flag = Some (VBool b0) →
  ∃ b, (extra_fields ∪ UserModel.defaults) !! flag = Some (VBool b).
Proof.
  intros [Hn|[b Hb]] Hd.
  - exists b0. rewrite lookup_union_r; done.
  - exists b. by apply lookup_union_Some_l.
Qed.

Lemma name_lookup (extra_fields : gmap string value) :
  name_ok extra_fields →
  ∃ s, (extra_fields ∪ UserModel.defaults) !! "name" = Some (VStr s).
Proof.
  intros [Hn|(s & Hs & _)].
  - exists EmptyString. rewrite lookup_union_r; done.
  - exists s. by apply lookup_union_Some_l.
Qed.

(** On a prepared instance [save] comes down to the uniqueness test and
    the insertion under a fresh key. *)
Lemma save_prepared db (u : User) :
  prepared u →
  UserModel.save is_datetime db u
  = let k := UserModel.fresh_pk db in
    if bool_decide (Exists (λ row, row !! "email" = u !! "email")
                           (filter (λ row, ¬ UserModel.has_pk k row) db))
    then Raise (IntegrityError "UNIQUE constraint failed: core_user.email")
    else
      let u' := <["id" := VInt k]> u in
      if bool_decide (Exists (λ row, UserModel.has_pk k row) db)
      then Ok ((λ row, if UserModel.has_pk k row then u' else row) <$> db, u')
      else Ok (db ++ [u'], u').
Proof.
  intros (Hid & Hll & [p Hp] & [e He] & [n Hn] & [b1 H1] & [b2 H2] & [b3 H3]).
  unfold UserModel.save, UserModel.pk_of, UserModel.check_datetime.
  rewrite Hid, Hll. simpl.
  rewrite (check_bool_ok _ _ _ H1), (check_bool_ok _ _ _ H2),
    (check_bool_ok _ _ _ H3). simpl.
  rewrite (not_null_ok _ _ _ Hp), (not_null_ok _ _ _ H1), (not_null_ok _ _ _ He),
    (not_null_ok _ _ _ Hn), (not_null_ok _ _ _ H2), (not_null_ok _ _ _ H3) by done.
  reflexivity.
Qed.

Lemma save_succeeds db (u : User) :
  prepared u →
  Forall (λ row, row !! "email" ≠ u !! "email") db →
  ∃ db' u', UserModel.save is_datetime db u = Ok (db', u').
Proof.
  intros Hprep Hfree. rewrite save_prepared by done. simpl.
  rewrite bool_decide_eq_false_2; cycle 1.
  { intros Hex. apply Exists_exists in Hex as (row & Hrow & Hrow').
    apply list_elem_of_filter in Hrow as [_ Hrow].
    rewrite Forall_forall in Hfree. by apply (Hfree row). }
  case_bool_decide; eauto.
Qed.

(** With accepted extra fields the constructor returns, and the instance
    is prepared once its password is set. *)
Lemma model_prepared email password extra_fields :
  accepted extra_fields →
  ∃ u0, model email extra_fields = Ok u0 ∧
        prepared (set_password make_password u0 password) ∧
        set_password make_password u0 password !! "email" = Some (VStr email).
Proof.
  intros (He & Hdom & Hid & Hll & Hname & Hsu & Hac & Hst).
  unfold model. rewrite He. unfold UserModel.init.
  rewrite bool_decide_eq_true_2; cycle 1.
  { rewrite dom_insert_L. apply union_least; [|done].
    apply singleton_subseteq_l. by vm_compute. }
  eexists. split; [reflexivity|]. set (u := set_password _ _ _).
  assert (∀ k, k ≠ "password" → k ≠ "email" →
            u !! k = (extra_fields ∪ UserModel.defaults) !! k) as Hu.
  { intros k ??. unfold u, set_password. rewrite lookup_insert_ne by done.
    rewrite !lookup_union. by rewrite lookup_insert_ne. }
  assert (u !! "email" = Some (VStr email)) as Hue.
  { unfold u, set_password. rewrite lookup_insert_ne by done.
    apply lookup_union_Some_l. by rewrite lookup_insert_eq. }
  split; [|done]. repeat split.
  - rewrite (Hu "id") by done. by rewrite lookup_union_r.
  - rewrite (Hu "last_login") by done. destruct Hll as [Hll|Hll].
    + by rewrite lookup_union_r.
    + by apply lookup_union_Some_l.
  - eexists. unfold u, set_password. by rewrite lookup_insert_eq.
  - by eexists.
  - rewrite (Hu "name") by done. by apply name_lookup.
  - rewrite (Hu "is_superuser") by done. by eapply flag_lookup.
  - rewrite (Hu "is_active") by done. by eapply flag_lookup.
  - rewrite (Hu "is_staff") by done. by eapply flag_lookup.
Qed.

(** With accepted extra fields and an unused address, [create_user] goes
    through, whatever the password argument. *)
Lemma create_user_succeeds db email password extra_fields :
  email ≠ EmptyString →
  accepted extra_fields →
  email_free db (normalize_email email) →
  ∃ db' u, create_user make_password is_datetime db email password extra_fields = Ok (db', u).
Proof.
  intros Hne Hacc Hfree.
  rewrite create_user_nonempty by done.
  destruct (model_prepared (normalize_email email) password _ Hacc)
    as (u0 & -> & Hprep & Hue).
  simpl. apply save_succeeds; [done|]. rewrite Hue. exact Hfree.
Qed.

(** No step of [save] raises the error of the empty address. *)
Lemma save_not_email_error db u :
  UserModel.save is_datetime db u
  ≠ Raise (ValueError "User must have an email address.").
Proof.
  unfold UserModel.save.
  destruct (UserModel.pk_of u) as [pk|e] eqn:Hpk; simpl; cycle 1.
  { unfold UserModel.pk_of in Hpk.
    destruct (u !! "id") as [[| | |s|]|]; try done.
    - destruct (Py.parse_int s); [done|]. injection Hpk as <-.
      unfold String.app. simpl. done.
    - by injection Hpk as <-. }
  destruct (UserModel.check_datetime _ _ u) as [?|e] eqn:Hd; simpl; cycle 1.
  { unfold UserModel.check_datetime in Hd.
    destruct (u !! "last_login") as [[| | |s|]|]; try done;
      try (by injection Hd as <-).
    destruct (is_datetime s); [done|]. by injection Hd as <-. }
  do 3 (match goal with
        | |- bind (UserModel.check_bool ?f u) _ ≠ _ =>
            let H := fresh in
            destruct (UserModel.check_bool f u) as [?|?] eqn:H; simpl; cycle 1;
            [unfold UserModel.check_bool in H;
             destruct (u !! f) as [[]|]; simpl in H; try done;
             repeat case_match; by simplify_eq|]
        end).
  do 6 (match goal with
        | |- bind (UserModel.not_null ?f u) _ ≠ _ =>
            let H := fresh in
            destruct (UserModel.not_null f u) as [?|?] eqn:H; simpl; cycle 1;
            [unfold UserModel.not_null in H;
             destruct (u !! f) as [[]|]; by simplify_eq|]
        end).
  repeat case_bool_decide; done.
Qed.

End user_manager_facts.

Lemma accepted_empty : accepted ∅.
Proof.
  split; [reflexivity|]. split; [by rewrite dom_empty_L|].
  split; [reflexivity|]. repeat split; by left.
Defined.

(** C5, as the code has it. [create_user] raises
    [ValueError("User must have an email address.")] exactly when the email
    is empty. With a non-empty plain address that is not stored yet and
    accepted extra fields, it returns; and whenever it returns for an ASCII
    address, the user is stored, its email is the normalized address (the
    part after the last [@] lower-cased) and its credential is what the
    hasher makes of the password, which differs from the plaintext for any
    hasher that never returns its input. *)
Theorem create_user_spec (make_password : option string → string)
    (is_datetime : string → bool)
    (db : list User) (email : string) (password : option string)
    (extra_fields : gmap string value) :
  (create_user make_password is_datetime db email password extra_fields
     = Raise (ValueError "User must have an email address.") ↔ email = EmptyString) ∧
  (email ≠ EmptyString → plain_address email → accepted extra_fields →
   email_free db (normalize_email email) →
   ∃ db' u, create_user make_password is_datetime db email password extra_fields = Ok (db', u)) ∧
  (Py.is_ascii email = true →
   ∀ db' u,
     create_user make_password is_datetime db email password extra_fields = Ok (db', u) →
     u ∈ db' ∧
     u !! "email" = Some (VStr (normalize_email email)) ∧
     (∀ name domain, Py.strip email = name +:+ "@" +:+ domain →
                     Py.rsplit1 "@" domain = None →
                     u !! "email" = Some (VStr (name +:+ "@" +:+ Py.lower domain))) ∧
     u !! "password" = Some (VStr (make_password password)) ∧
     (∀ p, password = Some p → make_password (Some p) ≠ p →
           u !! "password" ≠ Some (VStr p))).
Proof.
  split; [|split].
  - split; [|by intros ->].
    intros Hr. destruct (decide (email = EmptyString)) as [|Hne]; [done|].
    exfalso. rewrite create_user_nonempty in Hr by done.
    unfold model in Hr. destruct (extra_fields !! "email"); [done|].
    unfold UserModel.init in Hr. case_bool_decide; simpl in Hr; [|done].
    by apply save_not_email_error in Hr.
  - intros Hne _. by apply create_user_succeeds.
  - intros _ db' u Hc.
    destruct (create_user_returns _ _ _ _ _ _ _ _ Hc) as (Hne & Hin & He & Hp & _).
    split; [done|]. split; [done|]. split; [|split; [done|]].
    + intros name domain Hs Hd. by rewrite He, (normalize_email_domain _ _ _ Hs Hd).
    + intros p -> Hhash. rewrite Hp. intros [= Heq]. by apply Hhash.
Qed.

Lemma create_user_spec_witness :
  "Bob@EXAMPLE.Com" ≠ EmptyString ∧ plain_address "Bob@EXAMPLE.Com" ∧ accepted ∅ ∧
  email_free Sample.users (normalize_email "Bob@EXAMPLE.Com") ∧
  ∃ db' u,
    create_user Sample.make_password Sample.is_datetime Sample.users "Bob@EXAMPLE.Com" (Some "pw") ∅
      = Ok (db', u) ∧
    u ∈ db' ∧
    u !! "email" = Some (VStr "Bob@example.com") ∧
    u !! "password" = Some (VStr "plain$pw") ∧
    u !! "password" ≠ Some (VStr "pw").
Proof.
  assert ("Bob@EXAMPLE.Com" ≠ EmptyString) as Hne by discriminate.
  pose proof accepted_empty as Hacc.
  assert (email_free Sample.users (normalize_email "Bob@EXAMPLE.Com")) as Hfree
    by (apply (bool_decide_unpack _); vm_compute; exact I).
  assert (plain_address "Bob@EXAMPLE.Com") as Haddr
    by (split; [reflexivity|apply (bool_decide_unpack _); vm_compute; exact I]).
  split; [exact Hne|]. split; [exact Haddr|]. split; [exact Hacc|]. split; [exact Hfree|].
  destruct (create_user_spec Sample.make_password Sample.is_datetime Sample.users
              "Bob@EXAMPLE.Com" (Some "pw") ∅) as (_ & Hsucc & Hret).
  destruct (Hsucc Hne Haddr Hacc Hfree) as (db' & u & Hc).
  destruct (Hret eq_refl db' u Hc) as (Hin & _ & He & Hp & Hplain).
  exists db', u. split; [exact Hc|]. split; [exact Hin|].
  split; [exact (He "Bob" "EXAMPLE.Com" eq_refl eq_refl)|].
  split; [exact Hp|].
  apply (Hplain "pw" eq_refl). discriminate.
Defined.

(** C5 as stated fails: the empty email raises [ValueError], which is no
    [ValidationError]; and a non-empty email that is stored already ends in
    an integrity error instead of a created user. *)
Lemma create_user_not_ValidationError :
  (∃ e, create_user Sample.make_password Sample.is_datetime Sample.users "" (Some "pw") ∅ = Raise e ∧
        ¬ is_ValidationError e) ∧
  create_user Sample.make_password Sample.is_datetime Sample.users "alice@example.com" (Some "pw") ∅
    = Raise (IntegrityError "UNIQUE constraint failed: core_user.email").
Proof.
  split; [|reflexivity].
  exists (ValueError "User must have an email address."). split; [reflexivity|].
  intros [].
Qed.



(** *** [create_superuser] *)

Lemma accepted_forced (extra_fields : gmap string value) :
  accepted extra_fields →
  accepted (<["is_superuser" := VBool true]> (<["is_staff" := VBool true]> extra_fields)).
Proof.
  intros (He & Hdom & Hid & Hll & Hname & Hsu & Hac & Hst).
  split; [by rewrite !lookup_insert_ne|].
  split.
  { rewrite !dom_insert_L.
    repeat (apply union_least; [apply singleton_subseteq_l; by vm_compute|]).
    done. }
  split; [by rewrite !lookup_insert_ne|].
  split; [by rewrite !lookup_insert_ne|].
  split; [unfold name_ok; by rewrite !lookup_insert_ne|].
  split; [right; exists true; by rewrite lookup_insert_eq|].
  split; [unfold flag_ok; by rewrite !lookup_insert_ne|].
  right. exists true. rewrite lookup_insert_ne by done. by rewrite lookup_insert_eq.
Qed.

(** C6, as the code has it. [create_superuser] raises [ValueError] when
    [is_staff] or [is_superuser] is passed as [False]. When neither is
    passed it is [create_user] on the extra fields with both set to [True];
    a returned user has both flags [True]; and it does return for a
    non-empty plain address that is not stored yet and accepted extra
    fields. *)
Theorem create_superuser_spec (make_password : option string → string)
    (is_datetime : string → bool)
    (db : list User) (email : string) (password : option string)
    (extra_fields : gmap string value) :
  (extra_fields !! "is_staff" = Some (VBool false) ∨
   extra_fields !! "is_superuser" = Some (VBool false) →
   ∃ msg, create_superuser make_password is_datetime db email password extra_fields
          = Raise (ValueError msg)) ∧
  (extra_fields !! "is_staff" = None → extra_fields !! "is_superuser" = None →
   create_superuser make_password is_datetime db email password extra_fields
     = create_user make_password is_datetime db email password
         (<["is_superuser" := VBool true]> (<["is_staff" := VBool true]> extra_fields)) ∧
   (∀ db' u,
      create_superuser make_password is_datetime db email password extra_fields = Ok (db', u) →
      u ∈ db' ∧
      u !! "is_staff" = Some (VBool true) ∧ u !! "is_superuser" = Some (VBool true)) ∧
   (email ≠ EmptyString → plain_address email → accepted extra_fields →
    email_free db (normalize_email email) →
    ∃ db' u,
      create_superuser make_password is_datetime db email password extra_fields = Ok (db', u))).
Proof.
  split.
  - intros Hfalse. unfold create_superuser, setdefault.
    destruct Hfalse as [Hst|Hsu].
    + rewrite Hst. eexists.
      destruct (extra_fields !! "is_superuser"); simpl.
      * rewrite bool_decide_eq_true_2; [done|]. by rewrite Hst.
      * rewrite bool_decide_eq_true_2; [done|].
        rewrite lookup_insert_ne by done. by rewrite Hst.
    + destruct (extra_fields !! "is_staff") eqn:Hst; simpl.
      * rewrite Hsu. case_bool_decide; [by eexists|].
        rewrite bool_decide_eq_true_2; [by eexists|]. by rewrite Hsu.
      * rewrite lookup_insert_ne by done. rewrite Hsu. simpl.
        rewrite lookup_insert_eq.
        rewrite (bool_decide_eq_false_2 (_ ≠ _)) by (by intros ?).
        rewrite bool_decide_eq_true_2; [by eexists|].
        rewrite lookup_insert_ne by done. by rewrite Hsu.
  - intros Hst Hsu.
    assert (create_superuser make_password is_datetime db email password extra_fields
            = create_user make_password is_datetime db email password
                (<["is_superuser" := VBool true]>
                   (<["is_staff" := VBool true]> extra_fields))) as Heq.
    { unfold create_superuser, setdefault. rewrite Hst.
      rewrite (lookup_insert_ne _ "is_staff" "is_superuser") by done.
      rewrite Hsu. rewrite lookup_insert_ne by done.
      rewrite !lookup_insert_eq.
      by rewrite !(bool_decide_eq_false_2 (Some (VBool true) ≠ Some (VBool true)))
        by (by intros ?). }
    split; [exact Heq|]. rewrite Heq. split.
    + intros db' u Hc.
      destruct (create_user_returns _ _ _ _ _ _ _ _ Hc) as (_ & Hin & _ & _ & Hk).
      split; [done|]. rewrite !Hk by done. split.
      * apply lookup_union_Some_l. rewrite lookup_insert_ne by done.
        by rewrite lookup_insert_eq.
      * apply lookup_union_Some_l. by rewrite lookup_insert_eq.
    + intros Hne _ Hacc Hfree.
      apply create_user_succeeds; [done| |done]. by apply accepted_forced.
Qed.

Lemma create_superuser_spec_witness :
  (∅ : gmap string value) !! "is_staff" = None ∧
  (∅ : gmap string value) !! "is_superuser" = None ∧
  "root@Example.ORG" ≠ EmptyString ∧ plain_address "root@Example.ORG" ∧ accepted ∅ ∧
  email_free Sample.users (normalize_email "root@Example.ORG") ∧
  ∃ db' u,
    create_superuser Sample.make_password Sample.is_datetime Sample.users "root@Example.ORG"
      (Some "pw") ∅ = Ok (db', u) ∧
    u ∈ db' ∧
    u !! "is_staff" = Some (VBool true) ∧ u !! "is_superuser" = Some (VBool true).
Proof.
  assert ("root@Example.ORG" ≠ EmptyString) as Hne by discriminate.
  assert (email_free Sample.users (normalize_email "root@Example.ORG")) as Hfree
    by (apply (bool_decide_unpack _); vm_compute; exact I).
  assert (plain_address "root@Example.ORG") as Haddr
    by (split; [reflexivity|apply (bool_decide_unpack _); vm_compute; exact I]).
  split; [reflexivity|]. split; [reflexivity|].
  split; [exact Hne|]. split; [exact Haddr|].
  split; [exact accepted_empty|]. split; [exact Hfree|].
  destruct (create_superuser_spec Sample.make_password Sample.is_datetime Sample.users
              "root@Example.ORG" (Some "pw") ∅) as [_ Hnone].
  destruct (Hnone eq_refl eq_refl) as (_ & Hret & Hsucc).
  destruct (Hsucc Hne Haddr accepted_empty Hfree) as (db' & u & Hc).
  exists db', u. split; [exact Hc|]. exact (Hret db' u Hc).
Defined.

(** C6 as stated fails on the exception class: [is_staff=False] raises
    [ValueError], not a [ValidationError]. *)
Lemma create_superuser_not_ValidationError :
  ∃ e, create_superuser Sample.make_password Sample.is_datetime Sample.users "root@Example.ORG"
         (Some "pw") {[ "is_staff" := VBool false ]} = Raise e ∧
       e = ValueError "Superuser must have is_staff=True." ∧
       ¬ is_ValidationError e.
Proof.
  eexists. split; [reflexivity|]. split; [reflexivity|]. intros [].
Qed.

(** The identity test [is not True] also turns away a truthy non-boolean. *)
Example create_superuser_is_staff_one :
  create_superuser Sample.make_password Sample.is_datetime Sample.users "root@Example.ORG"
    (Some "pw") {[ "is_staff" := VInt 1 ]}
  = Raise (ValueError "Superuser must have is_staff=True.").
Proof. reflexivity. Qed.

(** ** Creating a recipe *)

Lemma kwargs_lookup_user (d : gmap string value) v :
  ({[ "user" := v ]} ∪ d) !! "user" = Some v.
Proof. apply lookup_union_Some_l. by rewrite lookup_singleton_eq. Qed.

Lemma kwargs_lookup_ne (d : gmap string value) v k :
  k ≠ "user" → ({[ "user" := v ]} ∪ d) !! k = d !! k.
Proof.
  intros Hk. rewrite lookup_union, lookup_singleton_ne by done.
  by destruct (d !! k).
Qed.

Lemma text_field_ok (d : gmap string value) k :
  text_ok d k → ∃ s, RecipeViewset.text_field k d = Ok s.
Proof.
  unfold RecipeViewset.text_field. intros [->|[s ->]]; by eexists.
Qed.

(** C8. Whatever the validated fields say about [user], a recipe that
    [perform_create] persists is owned by the caller; and for validated
    recipe fields it does persist one, appended to the table as a new row. *)
Theorem perform_create_owner (db : DB) (request : Request.t)
    (validated_data : gmap string value) :
  (∀ db' recipe,
     RecipeViewset.perform_create db request validated_data = Ok (db', recipe) →
     Recipe.user recipe = Request.user request ∧
     recipes db' = recipes db ++ [recipe]) ∧
  (validated_recipe validated_data →
   ∃ db' recipe,
     RecipeViewset.perform_create db request validated_data = Ok (db', recipe) ∧
     Recipe.user recipe = Request.user request ∧
     recipes db' = recipes db ++ [recipe]).
Proof.
  assert (∀ db' recipe,
     RecipeViewset.perform_create db request validated_data = Ok (db', recipe) →
     Recipe.user recipe = Request.user request ∧
     recipes db' = recipes db ++ [recipe]) as Hsafe.
  { intros db' recipe.
    unfold RecipeViewset.perform_create, RecipeViewset.serializer_save,
      RecipeViewset.serializer_create.
    destruct (RecipeViewset.text_field "title" _); simpl; [|done].
    destruct (RecipeViewset.text_field "description" _); simpl; [|done].
    destruct (RecipeViewset.number_field "time_minutes" _); simpl; [|done].
    destruct (RecipeViewset.number_field "price" _); simpl; [|done].
    destruct (RecipeViewset.text_field "link" _); simpl; [|done].
    unfold RecipeViewset.owner_field. rewrite kwargs_lookup_user. simpl.
    by intros [= <- <-]. }
  split; [exact Hsafe|].
  intros (Ht & Hd & Hl & [t Htm] & [p Hp]).
  assert (∃ db' recipe,
    RecipeViewset.perform_create db request validated_data = Ok (db', recipe))
    as (db' & recipe & Hc).
  { unfold RecipeViewset.perform_create, RecipeViewset.serializer_save,
      RecipeViewset.serializer_create.
    unfold RecipeViewset.text_field, RecipeViewset.number_field,
      RecipeViewset.owner_field.
    rewrite kwargs_lookup_user, !kwargs_lookup_ne by done.
    rewrite Htm, Hp.
    destruct (text_field_ok _ _ Ht) as [s1 H1].
    destruct (text_field_ok _ _ Hd) as [s2 H2].
    destruct (text_field_ok _ _ Hl) as [s3 H3].
    unfold RecipeViewset.text_field in H1, H2, H3.
    rewrite H1, H2, H3. simpl. by eexists _, _. }
  exists db', recipe. split; [done|]. by apply Hsafe.
Qed.

Lemma perform_create_owner_witness :
  let payload : gmap string value :=
    list_to_map [("title", VStr "Soup"); ("time_minutes", VInt 20);
                 ("price", VInt 450); ("user", VRef Sample.bob)] in
  let request := Sample.post Sample.alice [] in
  validated_recipe payload ∧
  ∃ db' recipe,
    RecipeViewset.perform_create Sample.db request payload = Ok (db', recipe) ∧
    Recipe.user recipe = Sample.alice ∧
    recipes db' = recipes Sample.db ++ [recipe].
Proof.
  intros payload request.
  assert (validated_recipe payload) as Hv.
  { split; [right; by exists "Soup"|]. split; [by left|]. split; [by left|].
    split; [by exists 20|by exists 450]. }
  split; [exact Hv|].
  exact (proj2 (perform_create_owner Sample.db request payload) Hv).
Defined.

(** The row created on the sample from a payload that names Bob. *)
Example perform_create_sample :
  RecipeViewset.perform_create Sample.db (Sample.post Sample.alice [])
    (list_to_map [("title", VStr "Soup"); ("time_minutes", VInt 20);
                  ("price", VInt 450); ("user", VRef Sample.bob)])
  = Ok (mkDB (recipes Sample.db ++ [Recipe.mk 4 "Soup" "" 20 450 "" Sample.alice None])
             (tags Sample.db) (ingredients Sample.db)
             (recipe_tags Sample.db) (recipe_ingredients Sample.db),
        Recipe.mk 4 "Soup" "" 20 450 "" Sample.alice None).
Proof. reflexivity. Qed.

(** ** Uploading an image *)

Lemma get_object_resolves db request pk recipe :
  RecipeViewset.get_object db request pk = Ok recipe →
  recipe ∈ recipes db ∧ Recipe.user recipe = Request.user request ∧
  Recipe.id recipe = pk.
Proof.
  unfold RecipeViewset.get_object.
  destruct (RecipeViewset.get_queryset db request) as [rows|] eqn:Hq; simpl; [|done].
  destruct (List.find _ rows) as [r|] eqn:Hf; [|done].
  intros [= ->]. apply find_some in Hf as [Hin Hid].
  apply list_elem_of_In in Hin. apply bool_decide_eq_true_1 in Hid.
  destruct (get_queryset_rows _ _ _ _ Hq Hin) as [? ?]. done.
Qed.

(** What [upload_image] does once [get_object] has resolved the recipe. *)
Lemma upload_image_resolved
    (image_validation : gmap string value → string + gmap string (list string))
    (uuid : string) (db : DB) (request : Request.t) (pk : Z) (recipe : Recipe.t) :
  RecipeViewset.get_object db request pk = Ok recipe →
  match image_validation (Request.data request) with
  | inl file =>
      let saved :=
        RecipeViewset.set_image recipe (Some (recipe_image_file_path uuid file)) in
      ∃ db',
        RecipeViewset.upload_image image_validation uuid db request pk
          = Ok (db', Response.mk
                       (Response.Representation (RecipeViewset.serializer_data saved))
                       200) ∧
        saved ∈ recipes db' ∧
        Recipe.image saved = Some (recipe_image_file_path uuid file) ∧
        ∀ r, r ∈ recipes db' → r = saved ∨ (r ∈ recipes db ∧ Recipe.id r ≠ pk)
  | inr errors =>
      RecipeViewset.upload_image image_validation uuid db request pk
        = Ok (db, Response.mk (Response.FieldErrors errors) 400)
  end.
Proof.
  intros Hobj.
  destruct (get_object_resolves _ _ _ _ Hobj) as (Hin & Hu & Hid).
  unfold RecipeViewset.upload_image. rewrite Hobj. simpl.
  unfold RecipeViewset.is_valid, RecipeViewset.save, RecipeViewset.errors. simpl.
  destruct (image_validation (Request.data request)) as [file|errors]; [|done].
  simpl. eexists. split; [reflexivity|]. simpl. split; [|split; [done|]].
  - apply list_elem_of_fmap. exists recipe. split; [|done].
    by rewrite bool_decide_eq_true_2.
  - intros r Hr. apply list_elem_of_fmap in Hr as (r0 & -> & Hr0).
    case_bool_decide as Hd; [by left|]. right. split; [done|]. by rewrite <- Hid.
Qed.

(** C7, as the code has it. With unique recipe ids, for a POST to the
    upload-image action on a stored recipe of the caller, where each of the
    [tags] and [ingredients] query parameters is absent or empty, or lists
    identifiers of which the recipe references one: if the payload passes
    the image validation, the recipe with its image set to the stored file
    is written to the table and the response is 200 with that recipe's
    representation; otherwise the database is left as it was and the
    response is 400 with the validation's errors by field name. *)
Theorem upload_image_spec
    (image_validation : gmap string value → string + gmap string (list string))
    (uuid : string) (db : DB) (request : Request.t) (recipe : Recipe.t)
    (tag_ids ingredient_ids : option (list Z)) :
  NoDup (Recipe.id <$> recipes db) →
  recipe ∈ recipes db → Recipe.user recipe = Request.user request →
  supplies request "tags" tag_ids →
  supplies request "ingredients" ingredient_ids →
  references (recipe_tags db) recipe tag_ids →
  references (recipe_ingredients db) recipe ingredient_ids →
  match image_validation (Request.data request) with
  | inl file =>
      let saved :=
        RecipeViewset.set_image recipe (Some (recipe_image_file_path uuid file)) in
      ∃ db',
        RecipeViewset.upload_image image_validation uuid db request (Recipe.id recipe)
          = Ok (db', Response.mk
                       (Response.Representation (RecipeViewset.serializer_data saved))
                       200) ∧
        saved ∈ recipes db' ∧
        Recipe.image saved = Some (recipe_image_file_path uuid file) ∧
        ∀ r, r ∈ recipes db' →
             r = saved ∨ (r ∈ recipes db ∧ Recipe.id r ≠ Recipe.id recipe)
  | inr errors =>
      RecipeViewset.upload_image image_validation uuid db request (Recipe.id recipe)
        = Ok (db, Response.mk (Response.FieldErrors errors) 400)
  end.
Proof.
  intros Hkey Hin Hu Htags Hings Hrt Hri.
  apply upload_image_resolved.
  by eapply get_object_listed.
Qed.

Lemma upload_image_spec_witness :
  let request :=
    Request.mk Sample.alice {[ "tags" := "10,11" ]} {[ "image" := VStr "photo.png" ]} in
  let saved := RecipeViewset.set_image Sample.soup (Some "uploads/recipe/u-1.png") in
  NoDup (Recipe.id <$> recipes Sample.db) ∧
  Sample.soup ∈ recipes Sample.db ∧ Recipe.user Sample.soup = Request.user request ∧
  supplies request "tags" (Some [10; 11]) ∧
  supplies request "ingredients" None ∧
  references (recipe_tags Sample.db) Sample.soup (Some [10; 11]) ∧
  references (recipe_ingredients Sample.db) Sample.soup None ∧
  ∃ db',
    RecipeViewset.upload_image Sample.image_validation "u-1" Sample.db request 1
      = Ok (db', Response.mk
                   (Response.Representation (RecipeViewset.serializer_data saved))
                   200) ∧
    saved ∈ recipes db'.
Proof.
  intros request saved.
  assert (NoDup (Recipe.id <$> recipes Sample.db)) as Hkey
    by (apply (bool_decide_unpack _); vm_compute; exact I).
  assert (Sample.soup ∈ recipes Sample.db) as Hin
    by (apply (bool_decide_unpack _); vm_compute; exact I).
  assert (supplies request "tags" (Some [10; 11])) as Htags
    by (supplies_some "10,11" ["10"; "11"]).
  assert (supplies request "ingredients" None) as Hings by (left; reflexivity).
  assert (references (recipe_tags Sample.db) Sample.soup (Some [10; 11])) as Hrt.
  { exists 10. split; apply (bool_decide_unpack _); vm_compute; exact I. }
  split; [exact Hkey|]. split; [exact Hin|]. split; [reflexivity|].
  split; [exact Htags|]. split; [exact Hings|]. split; [exact Hrt|]. split; [exact I|].
  destruct (upload_image_spec Sample.image_validation "u-1" Sample.db request
              Sample.soup _ _ Hkey Hin eq_refl Htags Hings Hrt I)
    as (db' & Hup & Hsaved & _).
  exists db'. split; [exact Hup|exact Hsaved].
Defined.

(** C7 as stated fails: [get_object] resolves the recipe in the filtered
    query set. Alice's POST on her own recipe 1, which has the tags 10 and
    11, with [tags=12] in the query string is answered 404 whatever the
    payload, and with [tags=x] it ends in the uncaught [ValueError]; neither
    is the 200 or the 400 of the claim, and nothing is written. *)
Lemma upload_image_owner_filtered_out :
  let payload : gmap string value := {[ "image" := VStr "photo.png" ]} in
  let request := Request.mk Sample.alice {[ "tags" := "12" ]} payload in
  let request' := Request.mk Sample.alice {[ "tags" := "x" ]} payload in
  Sample.soup ∈ recipes Sample.db ∧ Recipe.id Sample.soup = 1 ∧
  Recipe.user Sample.soup = Request.user request ∧
  Recipe.user Sample.soup = Request.user request' ∧
  Sample.image_validation payload = inl "photo.png" ∧
  (∀ image_validation uuid,
     RecipeViewset.upload_image image_validation uuid Sample.db request 1
       = Raise Http404 ∧
     dispatch (RecipeViewset.upload_image image_validation uuid Sample.db request 1)
       = ErrorResponse
           (Response.mk (Response.Representation {[ "detail" := VStr "Not found." ]})
                        404)) ∧
  (∀ image_validation uuid,
     dispatch (RecipeViewset.upload_image image_validation uuid Sample.db request' 1)
       = ServerError (ValueError "invalid literal for int() with base 10: 'x'")).
Proof.
  intros payload request request'.
  split; [apply (bool_decide_unpack _); vm_compute; exact I|].
  do 4 (split; [reflexivity|]).
  assert (RecipeViewset.get_object Sample.db request 1 = Raise Http404) as H404
    by (vm_compute; reflexivity).
  assert (RecipeViewset.get_object Sample.db request' 1
          = Raise (ValueError "invalid literal for int() with base 10: 'x'")) as Hx
    by (vm_compute; reflexivity).
  split; intros image_validation uuid; unfold RecipeViewset.upload_image.
  - by rewrite H404.
  - by rewrite Hx.
Qed.

(** A payload without a file: 400, errors under [image], nothing written. *)
Example upload_image_invalid_sample :
  RecipeViewset.upload_image Sample.image_validation "u-1" Sample.db
    (Sample.post Sample.alice []) 1
  = Ok (Sample.db,
        Response.mk (Response.FieldErrors {[ "image" := ["No file was submitted."] ]})
                    status.HTTP_400_BAD_REQUEST).
Proof. reflexivity. Qed.

(** Another user's recipe does not resolve. *)
Example upload_image_foreign_sample :
  RecipeViewset.upload_image Sample.image_validation "u-1" Sample.db
    (Sample.post Sample.alice [("image", VStr "photo.png")]) 3
  = Raise Http404.
Proof. reflexivity. Qed.

(** * Further properties of the code *)

(** ** [_params_to_ints] *)

(** X1. On ASCII text [_params_to_ints] is all or nothing and keeps the
    order: it returns [ids] exactly when the comma-separated tokens of the
    string are, one for one and in order, integer literals of the [ids];
    and when it raises, it raises [ValueError] and some token is no integer
    literal. *)
Theorem params_to_ints_tokens (qs : string) :
  Py.is_ascii qs = true →
  (∀ ids, RecipeViewset._params_to_ints qs = Ok ids ↔
          Forall2 (λ tok id, Py.parse_int tok = Some id) (Py.split "," qs) ids) ∧
  (∀ e, RecipeViewset._params_to_ints qs = Raise e →
        is_ValueError e ∧ ∃ tok, tok ∈ Py.split "," qs ∧ Py.parse_int tok = None).
Proof.
  intros _. unfold RecipeViewset._params_to_ints. split.
  - intros ids. rewrite traverse_Ok_Forall2.
    split; intros H; (eapply Forall2_impl; [exact H|]);
      intros tok id; by rewrite int_Ok_parse.
  - intros e He. split; [by eapply traverse_int_ValueError|].
    induction (Py.split "," qs) as [|tok toks IH]; simpl in He; [done|].
    unfold Py.int in He at 1. destruct (Py.parse_int tok) eqn:Htok; simpl in He.
    + destruct (traverse Py.int toks); simpl in He; [done|].
      destruct (IH He) as (tok' & Hin & Hbad).
      exists tok'. split; [by apply elem_of_cons; right|done].
    + exists tok. split; [by apply elem_of_cons; left|done].
Qed.

Lemma params_to_ints_tokens_witness :
  Py.is_ascii "7, -8,+9" = true ∧
  RecipeViewset._params_to_ints "7, -8,+9" = Ok [7; -8; 9] ∧
  Forall2 (λ tok id, Py.parse_int tok = Some id) (Py.split "," "7, -8,+9") [7; -8; 9].
Proof.
  split; [reflexivity|]. split; [reflexivity|].
  exact (proj1 (proj1 (params_to_ints_tokens "7, -8,+9" eq_refl) [7; -8; 9]) eq_refl).
Defined.

(** X2. A successful [_params_to_ints] returns one identifier per token:
    one more than the string has commas, so never the empty list. *)
Theorem params_to_ints_length (qs : string) (ids : list Z) :
  RecipeViewset._params_to_ints qs = Ok ids →
  length ids = S (count_char "," qs) ∧ ids ≠ [].
Proof.
  unfold RecipeViewset._params_to_ints. intros H%traverse_Ok_Forall2.
  apply Forall2_length in H. rewrite length_split in H.
  split; [done|]. intros ->. done.
Qed.

Lemma params_to_ints_length_witness :
  RecipeViewset._params_to_ints "10, 11,12" = Ok [10; 11; 12] ∧
  length [10; 11; 12] = S (count_char "," "10, 11,12") ∧ [10; 11; 12] ≠ @nil Z.
Proof.
  assert (RecipeViewset._params_to_ints "10, 11,12" = Ok [10; 11; 12]) as H
    by reflexivity.
  split; [exact H|]. exact (params_to_ints_length "10, 11,12" [10; 11; 12] H).
Defined.

(** X3. Joining two parameter strings with a comma concatenates their
    conversions, the first failure winning; hence a string that ends or
    starts with a comma always raises [ValueError], its last or first token
    being empty. *)
Theorem params_to_ints_comma (a b : string) :
  RecipeViewset._params_to_ints (a +:+ "," +:+ b)
    = (xs <- RecipeViewset._params_to_ints a ;;
       ys <- RecipeViewset._params_to_ints b ;;
       Ok (xs ++ ys)) ∧
  (∃ e, RecipeViewset._params_to_ints (a +:+ ",") = Raise e ∧ is_ValueError e) ∧
  (∃ e, RecipeViewset._params_to_ints ("," +:+ b) = Raise e ∧ is_ValueError e).
Proof.
  assert (∀ a b, RecipeViewset._params_to_ints (a +:+ "," +:+ b)
    = (xs <- RecipeViewset._params_to_ints a ;;
       ys <- RecipeViewset._params_to_ints b ;;
       Ok (xs ++ ys))) as Hcat.
  { intros a' b'. unfold RecipeViewset._params_to_ints.
    change ("," +:+ b') with (String "," b').
    by rewrite split_app_sep, traverse_app. }
  split; [apply Hcat|]. split.
  - change (a +:+ ",") with (a +:+ "," +:+ ""). rewrite Hcat.
    destruct (RecipeViewset._params_to_ints a) as [xs|e] eqn:Ha; simpl.
    + eexists. split; [reflexivity|exact I].
    + exists e. split; [done|].
      by eapply traverse_int_ValueError.
  - change ("," +:+ b) with ("" +:+ "," +:+ b). rewrite Hcat.
    eexists. split; [reflexivity|exact I].
Qed.

(** ** The recipe list as a function of its inputs *)

(** Two strictly descending lists with the same rows are the same list. *)
Lemma strictly_desc_unique (l1 l2 : list Recipe.t) :
  NoDup l1 → NoDup l2 →
  StronglySorted (λ a b, Recipe.id b < Recipe.id a) l1 →
  StronglySorted (λ a b, Recipe.id b < Recipe.id a) l2 →
  (∀ r, r ∈ l1 ↔ r ∈ l2) → l1 = l2.
Proof.
  intros Hn1 Hn2 Hs1 Hs2 Hmem.
  eapply StronglySorted_unique_strong; [|exact Hs1|exact Hs2|].
  - intros x1 x2 _ _ H12 H21. simpl in H12, H21. lia.
  - by apply NoDup_Permutation.
Qed.

Lemma references_same through r ids1 ids2 :
  same_ids ids1 ids2 → references through r ids1 ↔ references through r ids2.
Proof.
  destruct ids1 as [l1|], ids2 as [l2|]; simpl; try done.
  intros Hsame. split; intros (t & Ht & Hl); exists t; (split; [|done]); by apply Hsame.
Qed.

(** X4. With unique recipe ids, the recipe list depends on the listed
    identifiers only as sets: two requests of the same caller whose [tags]
    lists name the same identifiers, and whose [ingredients] lists do, get
    the same rows in the same order, however the lists are ordered or
    repeated. *)
Theorem recipe_list_ids_as_set (db : DB) (request1 request2 : Request.t)
    (tags1 tags2 ings1 ings2 : option (list Z)) :
  NoDup (Recipe.id <$> recipes db) →
  Request.user request1 = Request.user request2 →
  supplies request1 "tags" tags1 → supplies request2 "tags" tags2 →
  supplies request1 "ingredients" ings1 → supplies request2 "ingredients" ings2 →
  same_ids tags1 tags2 → same_ids ings1 ings2 →
  RecipeViewset.get_queryset db request1 = RecipeViewset.get_queryset db request2.
Proof.
  intros Hkey Hu Ht1 Ht2 Hi1 Hi2 Hts His.
  destruct (get_queryset_exact db request1 _ _ Hkey Ht1 Hi1)
    as (rows1 & -> & Hn1 & Hs1 & Hm1).
  destruct (get_queryset_exact db request2 _ _ Hkey Ht2 Hi2)
    as (rows2 & -> & Hn2 & Hs2 & Hm2).
  f_equal. apply strictly_desc_unique; [done..|].
  intros r. rewrite Hm1, Hm2, Hu.
  by rewrite (references_same _ r _ _ Hts), (references_same _ r _ _ His).
Qed.

Lemma recipe_list_ids_as_set_witness :
  let request1 := Sample.get Sample.alice [("tags", "10,11")] in
  let request2 := Sample.get Sample.alice [("tags", "11, 10,11"); ("ingredients", "")] in
  NoDup (Recipe.id <$> recipes Sample.db) ∧
  supplies request1 "tags" (Some [10; 11]) ∧
  supplies request2 "tags" (Some [11; 10; 11]) ∧
  same_ids (Some [10; 11]) (Some [11; 10; 11]) ∧
  RecipeViewset.get_queryset Sample.db request1
    = RecipeViewset.get_queryset Sample.db request2.
Proof.
  intros request1 request2.
  assert (NoDup (Recipe.id <$> recipes Sample.db)) as Hkey
    by (apply (bool_decide_unpack _); vm_compute; exact I).
  assert (supplies request1 "tags" (Some [10; 11])) as Ht1
    by (supplies_some "10,11" ["10"; "11"]).
  assert (supplies request2 "tags" (Some [11; 10; 11])) as Ht2
    by (supplies_some "11, 10,11" ["11"; " 10"; "11"]).
  assert (supplies request1 "ingredients" None) as Hi1 by (left; reflexivity).
  assert (supplies request2 "ingredients" None) as Hi2 by (right; reflexivity).
  assert (same_ids (Some [10; 11]) (Some [11; 10; 11])) as Hts.
  { intros t. rewrite !elem_of_cons. split; intros H; tauto. }
  split; [exact Hkey|]. split; [exact Ht1|]. split; [exact Ht2|]. split; [exact Hts|].
  exact (recipe_list_ids_as_set Sample.db request1 request2 _ _ _ _
           Hkey eq_refl Ht1 Ht2 Hi1 Hi2 Hts I).
Defined.

(** X5. Narrowing only removes rows, and only the narrowing parameters can
    make the list fail: whatever a request returns is among the rows the
    same caller gets without query parameters, and that plain request always
    succeeds. *)
Theorem recipe_list_narrowing (db : DB) (request : Request.t) :
  ∃ all_rows,
    RecipeViewset.get_queryset db
      (Request.mk (Request.user request) ∅ (Request.data request)) = Ok all_rows ∧
    (∀ r, r ∈ all_rows ↔ r ∈ recipes db ∧ Recipe.user r = Request.user request) ∧
    ∀ rows, RecipeViewset.get_queryset db request = Ok rows → rows ⊆ all_rows.
Proof.
  eexists. split; [reflexivity|].
  assert (∀ r, r ∈ QuerySet.distinct (QuerySet.order_by_desc Recipe.id
                 (filter (λ r, Recipe.user r = Request.user request) (recipes db))) ↔
               r ∈ recipes db ∧ Recipe.user r = Request.user request) as Hall.
  { intros r.
    rewrite elem_of_distinct, elem_of_order_by_desc, list_elem_of_filter. tauto. }
  split; [exact Hall|].
  intros rows Hq r Hr. apply Hall. by eapply get_queryset_rows.
Qed.

(** X6. Identifiers that no link of the caller's recipes carries are not
    an error: when no recipe of the caller references a listed tag, the list
    is empty. *)
Theorem recipe_list_no_match (db : DB) (request : Request.t)
    (tag_ids : list Z) (ingredient_ids : option (list Z)) :
  supplies request "tags" (Some tag_ids) →
  supplies request "ingredients" ingredient_ids →
  (∀ r t, r ∈ recipes db → Recipe.user r = Request.user request →
          t ∈ tag_ids → (Recipe.id r, t) ∉ recipe_tags db) →
  RecipeViewset.get_queryset db request = Ok [].
Proof.
  intros Htags Hings Hnone.
  destruct (narrowed_supplies _ _ _ (recipe_tags db) (recipes db) Htags)
    as (qs1 & H1 & Hqs1).
  destruct (narrowed_supplies _ _ _ (recipe_ingredients db) qs1 Hings)
    as (qs2 & H2 & Hqs2).
  rewrite get_queryset_unfold, H1. simpl. rewrite H2. simpl. f_equal.
  apply elem_of_nil_inv. intros r.
  rewrite elem_of_distinct, elem_of_order_by_desc, list_elem_of_filter, Hqs2, Hqs1.
  intros (Hu & (Hr & t & Ht & Hl) & _). by apply (Hnone r t).
Qed.

Lemma recipe_list_no_match_witness :
  let request := Sample.get Sample.alice [("tags", "12,99,-1")] in
  supplies request "tags" (Some [12; 99; -1]) ∧
  supplies request "ingredients" None ∧
  RecipeViewset.get_queryset Sample.db request = Ok [].
Proof.
  intros request.
  assert (supplies request "tags" (Some [12; 99; -1])) as Ht
    by (supplies_some "12,99,-1" ["12"; "99"; "-1"]).
  assert (supplies request "ingredients" None) as Hi by (left; reflexivity).
  split; [exact Ht|]. split; [exact Hi|].
  apply (recipe_list_no_match Sample.db request [12; 99; -1] None Ht Hi).
  intros r t Hr Hu Ht'. apply (bool_decide_unpack _).
  simpl in Hr. rewrite !elem_of_cons in Hr. rewrite !elem_of_cons in Ht'.
  destruct Hr as [->|[->|[->|Hr]]]; [..|by apply not_elem_of_nil in Hr];
    (destruct Ht' as [->|[->|[->|Ht']]]; [..|by apply not_elem_of_nil in Ht']);
    try (by vm_compute); by vm_compute in Hu.
Defined.

(** ** Whose rows a list depends on *)

Lemma filter_m2m_row through ids (r : Recipe.t) :
  Forall (λ r', r' = r) (QuerySet.filter_m2m_id_in through ids [r]).
Proof.
  unfold QuerySet.filter_m2m_id_in. simpl. rewrite app_nil_r.
  induction through as [|l through IH]; simpl; [constructor|].
  apply Forall_app. split; [|done].
  case_bool_decide; by repeat constructor.
Qed.

Lemma filter_m2m_cons through ids (r : Recipe.t) qs :
  QuerySet.filter_m2m_id_in through ids (r :: qs)
  = QuerySet.filter_m2m_id_in through ids [r] ++ QuerySet.filter_m2m_id_in through ids qs.
Proof. unfold QuerySet.filter_m2m_id_in. simpl. by rewrite app_nil_r. Qed.

Lemma filter_copies (P : Recipe.t → Prop) `{∀ r, Decision (P r)} r (l : list Recipe.t) :
  Forall (λ r', r' = r) l → filter P l = if decide (P r) then l else [].
Proof.
  induction 1 as [|r' l -> _ IH]; [by case_decide|].
  rewrite filter_cons, IH. by repeat case_decide.
Qed.

(** The owner filter can be applied before a join instead of after it. *)
Lemma filter_m2m_filter (P : Recipe.t → Prop) `{∀ r, Decision (P r)} through ids qs :
  filter P (QuerySet.filter_m2m_id_in through ids qs)
  = QuerySet.filter_m2m_id_in through ids (filter P qs).
Proof.
  induction qs as [|r qs IH]; [done|].
  rewrite filter_m2m_cons, filter_app, IH, filter_cons.
  rewrite (filter_copies P r) by apply filter_m2m_row.
  case_decide; [by rewrite <- filter_m2m_cons|done].
Qed.

Lemma narrowed_filter (P : Recipe.t → Prop) `{∀ r, Decision (P r)} through param qs :
  narrowed through param (filter P qs)
  = (qs' <- narrowed through param qs ;; Ok (filter P qs')).
Proof.
  unfold narrowed. destruct param as [p|]; [|done].
  destruct (Py.truthy p); [|done].
  destruct (RecipeViewset._params_to_ints p); simpl; [|done].
  by rewrite filter_m2m_filter.
Qed.

(** [get_queryset] computed on the caller's rows alone. *)
Lemma get_queryset_own_rows db request :
  RecipeViewset.get_queryset db request =
    (qs1 <- narrowed (recipe_tags db) (Request.query_params request !! "tags")
              (filter (λ r, Recipe.user r = Request.user request) (recipes db)) ;;
     qs2 <- narrowed (recipe_ingredients db)
              (Request.query_params request !! "ingredients") qs1 ;;
     Ok (QuerySet.distinct (QuerySet.order_by_desc Recipe.id qs2))).
Proof.
  rewrite get_queryset_unfold, narrowed_filter.
  destruct (narrowed _ _ (recipes db)) as [qs1|]; simpl; [|done].
  rewrite narrowed_filter.
  by destruct (narrowed _ _ qs1).
Qed.

(** X7. The recipe list of a caller is a function of the caller's own
    recipe rows and the two association tables: on two database states that
    agree on these, every request of that caller has the same outcome, rows
    or exception, whatever other users' rows, tags and ingredients are. *)
Theorem recipe_list_own_rows_only (db1 db2 : DB) (request : Request.t) :
  filter (λ r, Recipe.user r = Request.user request) (recipes db1)
    = filter (λ r, Recipe.user r = Request.user request) (recipes db2) →
  recipe_tags db1 = recipe_tags db2 →
  recipe_ingredients db1 = recipe_ingredients db2 →
  RecipeViewset.get_queryset db1 request = RecipeViewset.get_queryset db2 request.
Proof.
  intros Hown Htags Hings.
  rewrite !get_queryset_own_rows. by rewrite Hown, Htags, Hings.
Qed.

Lemma recipe_list_own_rows_only_witness :
  let db2 := mkDB [Sample.soup; Sample.curry] [] [] (recipe_tags Sample.db)
                  (recipe_ingredients Sample.db) in
  let request := Sample.get Sample.alice [("tags", "11")] in
  filter (λ r, Recipe.user r = Request.user request) (recipes Sample.db)
    = filter (λ r, Recipe.user r = Request.user request) (recipes db2) ∧
  RecipeViewset.get_queryset Sample.db request = RecipeViewset.get_queryset db2 request.
Proof.
  intros db2 request.
  assert (filter (λ r, Recipe.user r = Request.user request) (recipes Sample.db)
          = filter (λ r, Recipe.user r = Request.user request) (recipes db2)) as Hown
    by (vm_compute; reflexivity).
  split; [exact Hown|].
  exact (recipe_list_own_rows_only Sample.db db2 request Hown eq_refl eq_refl).
Defined.

(** ** What an upload and a creation leave alone *)

Section upload_facts.

Variable image_validation : gmap string value → string + gmap string (list string).
Variable uuid : string.

Lemma upload_image_Ok_inv db request pk db' response :
  RecipeViewset.upload_image image_validation uuid db request pk = Ok (db', response) →
  ∃ recipe,
    RecipeViewset.get_object db request pk = Ok recipe ∧
    match image_validation (Request.data request) with
    | inl file =>
        let saved :=
          RecipeViewset.set_image recipe (Some (recipe_image_file_path uuid file)) in
        db' = mkDB ((λ r, if bool_decide (Recipe.id r = Recipe.id saved) then saved else r)
                      <$> recipes db)
                   (tags db) (ingredients db) (recipe_tags db) (recipe_ingredients db) ∧
        response = Response.mk
                     (Response.Representation (RecipeViewset.serializer_data saved)) 200
    | inr errors =>
        db' = db ∧ response = Response.mk (Response.FieldErrors errors) 400
    end.
Proof.
  unfold RecipeViewset.upload_image.
  destruct (RecipeViewset.get_object db request pk) as [recipe|]; simpl; [|done].
  unfold RecipeViewset.is_valid, RecipeViewset.save, RecipeViewset.errors. simpl.
  intros Hup. exists recipe. split; [done|].
  destruct (image_validation (Request.data request)); simpl in *;
    by injection Hup as <- <-.
Qed.

(** With unique ids the row of an id is the row. *)
Lemma row_of_id db (r1 r2 : Recipe.t) :
  NoDup (Recipe.id <$> recipes db) → r1 ∈ recipes db → r2 ∈ recipes db →
  Recipe.id r1 = Recipe.id r2 → r1 = r2.
Proof.
  intros Hkey H1 H2 Hid.
  apply list_elem_of_lookup in H1 as [i Hi], H2 as [j Hj].
  assert (i = j) as ->; [|congruence].
  eapply NoDup_lookup; [exact Hkey|..]; rewrite list_lookup_fmap.
  - by rewrite Hi.
  - by rewrite Hj, Hid.
Qed.

(** X8. With unique recipe ids, an upload that gets a response changes at
    most one column of one row: on 200 the image of the addressed recipe
    becomes the stored path and every other column of every row stays; on
    400 the database is unchanged. Tags, ingredients and both association
    tables are never touched, and recipe ids stay unique. *)
Theorem upload_image_effect (db : DB) (request : Request.t) (pk : Z)
    (db' : DB) (response : Response.t) :
  NoDup (Recipe.id <$> recipes db) →
  RecipeViewset.upload_image image_validation uuid db request pk = Ok (db', response) →
  tags db' = tags db ∧ ingredients db' = ingredients db ∧
  recipe_tags db' = recipe_tags db ∧ recipe_ingredients db' = recipe_ingredients db ∧
  NoDup (Recipe.id <$> recipes db') ∧
  match image_validation (Request.data request) with
  | inl file =>
      Response.status response = 200 ∧
      recipes db' =
        (λ r, if bool_decide (Recipe.id r = pk)
              then RecipeViewset.set_image r (Some (recipe_image_file_path uuid file))
              else r) <$> recipes db
  | inr _ => Response.status response = 400 ∧ db' = db
  end.
Proof.
  intros Hkey Hup.
  apply upload_image_Ok_inv in Hup as (recipe & Hobj & Hup).
  destruct (get_object_resolves _ _ _ _ Hobj) as (Hin & _ & Hid).
  destruct (image_validation (Request.data request)) as [file|errors].
  - destruct Hup as [-> ->]. simpl.
    assert ((λ r, if bool_decide (Recipe.id r = Recipe.id recipe)
                  then RecipeViewset.set_image recipe
                         (Some (recipe_image_file_path uuid file))
                  else r) <$> recipes db
            = (λ r, if bool_decide (Recipe.id r = pk)
                    then RecipeViewset.set_image r
                           (Some (recipe_image_file_path uuid file))
                    else r) <$> recipes db) as Hrows.
    { apply list_fmap_ext. intros i r Hr. rewrite Hid.
      case_bool_decide as Hd; [|done].
      assert (r = recipe) as ->; [|done].
      apply (row_of_id db); [done|by eapply list_elem_of_lookup_2|done|by rewrite Hid]. }
    do 4 (split; [reflexivity|]). split; [|by split].
    rewrite Hrows, <- list_fmap_compose.
    erewrite list_fmap_ext; [exact Hkey|].
    intros i r _. simpl. by case_bool_decide.
  - destruct Hup as [-> ->]. do 4 (split; [reflexivity|]). by split.
Qed.

Lemma upload_image_Ok_rows db request pk db' response :
  NoDup (Recipe.id <$> recipes db) →
  RecipeViewset.upload_image image_validation uuid db request pk = Ok (db', response) →
  recipe_tags db' = recipe_tags db ∧ recipe_ingredients db' = recipe_ingredients db ∧
  ∀ other, other ≠ Request.user request →
    filter (λ r, Recipe.user r = other) (recipes db')
    = filter (λ r, Recipe.user r = other) (recipes db).
Proof.
  intros Hkey Hup.
  apply upload_image_Ok_inv in Hup as (recipe & Hobj & Hup).
  destruct (get_object_resolves _ _ _ _ Hobj) as (Hin & Hu & Hid).
  destruct (image_validation (Request.data request)) as [file|errors];
    destruct Hup as [-> _]; [|done].
  simpl. split; [done|]. split; [done|].
  intros other Hother.
  assert (∀ l, l ⊆ recipes db →
    filter (λ r, Recipe.user r = other)
      ((λ r, if bool_decide (Recipe.id r = Recipe.id recipe)
             then RecipeViewset.set_image recipe
                    (Some (recipe_image_file_path uuid file))
             else r) <$> l)
    = filter (λ r, Recipe.user r = other) l) as Hl.
  { induction l as [|r l IH]; intros Hsub; [done|].
    rewrite fmap_cons, !filter_cons, IH by set_solver.
    case_bool_decide as Hd; [|done].
    assert (r = recipe) as -> by (apply (row_of_id db); [done|set_solver|done..]).
    simpl. rewrite !decide_False; [done|by rewrite Hu..]. }
  by apply Hl.
Qed.

(** X9. With unique recipe ids, an upload by one user changes nothing any
    other user can list: after it, every recipe request of another caller
    has the outcome it had before, and so has every tag and ingredient
    request of anyone. *)
Theorem upload_image_isolated (db : DB) (request : Request.t) (pk : Z)
    (db' : DB) (response : Response.t) (other : Request.t) :
  NoDup (Recipe.id <$> recipes db) →
  RecipeViewset.upload_image image_validation uuid db request pk = Ok (db', response) →
  (Request.user other ≠ Request.user request →
   RecipeViewset.get_queryset db' other = RecipeViewset.get_queryset db other) ∧
  TagViewSet.get_queryset db' other = TagViewSet.get_queryset db other ∧
  IngredientViewSet.get_queryset db' other = IngredientViewSet.get_queryset db other.
Proof.
  intros Hkey Hup.
  destruct (upload_image_Ok_rows _ _ _ _ _ Hkey Hup) as (Ht & Hi & Hrows).
  destruct (upload_image_effect _ _ _ _ _ Hkey Hup) as (Htags & Hings & _).
  split; [|split].
  - intros Hother. rewrite !get_queryset_own_rows.
    by rewrite (Hrows _ Hother), Ht, Hi.
  - unfold TagViewSet.get_queryset. by rewrite Htags, Ht.
  - unfold IngredientViewSet.get_queryset. by rewrite Hings, Hi.
Qed.

(** X10. [upload_image] raises only what resolving the recipe raises: a
    [ValueError] of a malformed filter or the 404 of an id that does not
    resolve; a payload that fails validation is answered, never raised. *)
Theorem upload_image_raises (db : DB) (request : Request.t) (pk : Z) (e : exn) :
  RecipeViewset.upload_image image_validation uuid db request pk = Raise e ↔
  RecipeViewset.get_object db request pk = Raise e ∧ (is_ValueError e ∨ e = Http404).
Proof.
  unfold RecipeViewset.upload_image.
  destruct (RecipeViewset.get_object db request pk) as [recipe|e'] eqn:Hobj; simpl.
  - split; [|by intros [? _]].
    destruct (RecipeViewset.is_valid _ _); [|done].
    by destruct (RecipeViewset.save _ _ _ _).
  - split; [|by intros [[= ->] _]]. intros [= <-]. split; [done|].
    unfold RecipeViewset.get_object in Hobj.
    destruct (RecipeViewset.get_queryset db request) as [rows|e''] eqn:Hq;
      simpl in Hobj.
    + destruct (List.find _ rows); [done|]. injection Hobj as <-. by right.
    + injection Hobj as <-. left. rewrite get_queryset_unfold in Hq.
      destruct (narrowed _ _ (recipes db)) as [qs1|] eqn:H1; simpl in Hq.
      * destruct (narrowed _ _ qs1) eqn:H2; simpl in Hq; [done|].
        injection Hq as <-. by eapply narrowed_ValueError.
      * injection Hq as <-. by eapply narrowed_ValueError.
Qed.

End upload_facts.

Lemma sample_recipe_ids : NoDup (Recipe.id <$> recipes Sample.db).
Proof. apply (bool_decide_unpack _). vm_compute. exact I. Defined.

Lemma upload_image_effect_witness :
  let request := Sample.post Sample.alice [("image", VStr "photo.png")] in
  NoDup (Recipe.id <$> recipes Sample.db) ∧
  ∃ db' response,
    RecipeViewset.upload_image Sample.image_validation "u-1" Sample.db request 1
      = Ok (db', response) ∧
    tags db' = tags Sample.db ∧ ingredients db' = ingredients Sample.db ∧
    recipe_tags db' = recipe_tags Sample.db ∧
    recipe_ingredients db' = recipe_ingredients Sample.db ∧
    NoDup (Recipe.id <$> recipes db') ∧
    Response.status response = 200 ∧
    recipes db' =
      [RecipeViewset.set_image Sample.soup (Some "uploads/recipe/u-1.png");
       Sample.curry; Sample.stew].
Proof.
  intros request. split; [exact sample_recipe_ids|].
  eexists _, _. split; [reflexivity|].
  exact (upload_image_effect Sample.image_validation "u-1" Sample.db request 1 _ _
           sample_recipe_ids eq_refl).
Defined.

Lemma upload_image_isolated_witness :
  let request := Sample.post Sample.alice [("image", VStr "photo.png")] in
  let other := Sample.get Sample.bob [("tags", "12")] in
  NoDup (Recipe.id <$> recipes Sample.db) ∧
  Request.user other ≠ Request.user request ∧
  ∃ db' response,
    RecipeViewset.upload_image Sample.image_validation "u-1" Sample.db request 1
      = Ok (db', response) ∧
    RecipeViewset.get_queryset db' other = RecipeViewset.get_queryset Sample.db other ∧
    TagViewSet.get_queryset db' other = TagViewSet.get_queryset Sample.db other ∧
    IngredientViewSet.get_queryset db' other
      = IngredientViewSet.get_queryset Sample.db other.
Proof.
  intros request other.
  assert (Request.user other ≠ Request.user request) as Hne by (by vm_compute).
  split; [exact sample_recipe_ids|]. split; [exact Hne|].
  eexists _, _. split; [reflexivity|].
  destruct (upload_image_isolated Sample.image_validation "u-1" Sample.db request 1
              _ _ other sample_recipe_ids eq_refl) as (Hr & Ht & Hi).
  split; [exact (Hr Hne)|]. split; [exact Ht|exact Hi].
Defined.

(** ** Recipes that do not resolve *)

(** X11. An id under which the caller owns no stored recipe is answered
    the same way whether the id is unknown or belongs to someone else: when
    the filters convert, [get_object] raises the 404 exception, which the
    handler turns into a 404 response, and [upload_image] raises it before
    looking at the payload. *)
Theorem foreign_recipe_not_found
    (image_validation : gmap string value → string + gmap string (list string))
    (uuid : string) (db : DB) (request : Request.t) (pk : Z)
    (tag_ids ingredient_ids : option (list Z)) :
  supplies request "tags" tag_ids →
  supplies request "ingredients" ingredient_ids →
  (∀ r, r ∈ recipes db → Recipe.id r = pk → Recipe.user r ≠ Request.user request) →
  RecipeViewset.get_object db request pk = Raise Http404 ∧
  RecipeViewset.upload_image image_validation uuid db request pk = Raise Http404 ∧
  ∃ response,
    dispatch (RecipeViewset.upload_image image_validation uuid db request pk)
      = ErrorResponse response ∧ Response.status response = 404.
Proof.
  intros Htags Hings Hnone.
  assert (RecipeViewset.get_object db request pk = Raise Http404) as Hobj.
  { unfold RecipeViewset.get_object.
    destruct (narrowed_supplies _ _ _ (recipe_tags db) (recipes db) Htags)
      as (qs1 & H1 & Hqs1).
    destruct (narrowed_supplies _ _ _ (recipe_ingredients db) qs1 Hings)
      as (qs2 & H2 & Hqs2).
    rewrite get_queryset_unfold, H1. simpl. rewrite H2. simpl.
    destruct (List.find _ _) as [r|] eqn:Hf; [|done].
    exfalso. apply find_some in Hf as [Hr Hid].
    apply bool_decide_eq_true_1 in Hid.
    apply list_elem_of_In, elem_of_distinct, elem_of_order_by_desc,
      list_elem_of_filter in Hr as [Hu Hr].
    apply Hqs2 in Hr as [Hr _]. apply Hqs1 in Hr as [Hr _].
    by apply (Hnone r). }
  split; [exact Hobj|].
  unfold RecipeViewset.upload_image. rewrite Hobj. simpl.
  split; [done|]. by eexists.
Qed.

Lemma foreign_recipe_not_found_witness :
  let request := Sample.post Sample.alice [("image", VStr "photo.png")] in
  supplies request "tags" None ∧ supplies request "ingredients" None ∧
  RecipeViewset.get_object Sample.db request 3 = Raise Http404 ∧
  RecipeViewset.get_object Sample.db request 77 = Raise Http404 ∧
  RecipeViewset.upload_image Sample.image_validation "u-1" Sample.db request 3
    = Raise Http404.
Proof.
  intros request.
  assert (supplies request "tags" None) as Ht by (left; reflexivity).
  assert (supplies request "ingredients" None) as Hi by (left; reflexivity).
  assert (∀ pk, pk = 3 ∨ pk = 77 →
            ∀ r, r ∈ recipes Sample.db → Recipe.id r = pk →
                 Recipe.user r ≠ Request.user request) as Hnone.
  { intros pk Hpk r Hr Hid. simpl in Hr. rewrite !elem_of_cons in Hr.
    destruct Hr as [->|[->|[->|Hr]]]; [..|by apply not_elem_of_nil in Hr];
      simpl in Hid; [lia|lia|by vm_compute]. }
  split; [exact Ht|]. split; [exact Hi|].
  destruct (foreign_recipe_not_found Sample.image_validation "u-1" Sample.db request
              3 None None Ht Hi (Hnone 3 (or_introl eq_refl))) as (H3 & Hup & _).
  destruct (foreign_recipe_not_found Sample.image_validation "u-1" Sample.db request
              77 None None Ht Hi (Hnone 77 (or_intror eq_refl))) as (H77 & _).
  split; [exact H3|]. split; [exact H77|exact Hup].
Defined.

(** ** Creation and other users *)

Lemma perform_create_Ok_inv db request validated_data db' recipe :
  RecipeViewset.perform_create db request validated_data = Ok (db', recipe) →
  Recipe.user recipe = Request.user request ∧
  db' = mkDB (recipes db ++ [recipe]) (tags db) (ingredients db)
             (recipe_tags db) (recipe_ingredients db).
Proof.
  unfold RecipeViewset.perform_create, RecipeViewset.serializer_save,
    RecipeViewset.serializer_create.
  destruct (RecipeViewset.text_field "title" _); simpl; [|done].
  destruct (RecipeViewset.text_field "description" _); simpl; [|done].
  destruct (RecipeViewset.number_field "time_minutes" _); simpl; [|done].
  destruct (RecipeViewset.number_field "price" _); simpl; [|done].
  destruct (RecipeViewset.text_field "link" _); simpl; [|done].
  unfold RecipeViewset.owner_field. rewrite kwargs_lookup_user. simpl.
  by intros [= <- <-].
Qed.

Lemma plain_list_rows db caller payload rows :
  RecipeViewset.get_queryset db (Request.mk caller ∅ payload) = Ok rows →
  ∀ r, r ∈ rows ↔ r ∈ recipes db ∧ Recipe.user r = caller.
Proof.
  rewrite get_queryset_unfold. simpl. rewrite !lookup_empty. simpl.
  intros [= <-] r.
  rewrite elem_of_distinct, elem_of_order_by_desc, list_elem_of_filter. tauto.
Qed.

(** X12. A recipe created by one user changes nothing another user can
    list: after [perform_create], every recipe request of a different caller
    has the outcome it had before, and the creator's own plain list gains
    exactly the new row. *)
Theorem perform_create_isolated (db : DB) (request : Request.t)
    (validated_data : gmap string value) (db' : DB) (recipe : Recipe.t)
    (other : Request.t) :
  RecipeViewset.perform_create db request validated_data = Ok (db', recipe) →
  (Request.user other ≠ Request.user request →
   RecipeViewset.get_queryset db' other = RecipeViewset.get_queryset db other) ∧
  (∀ rows rows',
     RecipeViewset.get_queryset db (Request.mk (Request.user request) ∅ ∅) = Ok rows →
     RecipeViewset.get_queryset db' (Request.mk (Request.user request) ∅ ∅) = Ok rows' →
     ∀ r, r ∈ rows' ↔ r = recipe ∨ r ∈ rows).
Proof.
  intros Hc. apply perform_create_Ok_inv in Hc as [Hu ->]. split.
  - intros Hother. rewrite !get_queryset_own_rows. simpl.
    rewrite filter_app, filter_cons, decide_False, filter_nil, app_nil_r; [done|].
    by rewrite Hu.
  - intros rows rows' Hrows Hrows' r.
    rewrite (plain_list_rows _ _ _ _ Hrows), (plain_list_rows _ _ _ _ Hrows').
    simpl. rewrite elem_of_app, list_elem_of_singleton. split.
    + intros [[?| ->] ?]; [by right|by left].
    + intros [->|[? ?]]; [by split; [right|]|by split; [left|]].
Qed.

Lemma perform_create_isolated_witness :
  let payload : gmap string value :=
    list_to_map [("title", VStr "Soup"); ("time_minutes", VInt 20);
                 ("price", VInt 450)] in
  let request := Sample.post Sample.alice [] in
  let other := Sample.get Sample.bob [] in
  Request.user other ≠ Request.user request ∧
  ∃ db' recipe,
    RecipeViewset.perform_create Sample.db request payload = Ok (db', recipe) ∧
    RecipeViewset.get_queryset db' other = RecipeViewset.get_queryset Sample.db other.
Proof.
  intros payload request other.
  assert (Request.user other ≠ Request.user request) as Hne by (by vm_compute).
  split; [exact Hne|]. eexists _, _. split; [reflexivity|].
  exact (proj1 (perform_create_isolated Sample.db request payload _ _ other eq_refl) Hne).
Defined.

(** ** [assigned_only] beyond 0 and 1 *)

Section attr_facts.

Context `{RecipeAttr A}.

Lemma attr_get_queryset_parsed (queryset : list A) through request :
  BaseRecipeAttrViewSet.get_queryset queryset through request =
    match Request.query_params request !! "assigned_only" with
    | Some s =>
        match Py.parse_int s with
        | Some n =>
            Ok (QuerySet.distinct
                  (QuerySet.order_by_desc_str attr_name
                     (filter (λ a, attr_user a = Request.user request)
                        (if bool_decide (n ≠ 0)
                         then QuerySet.filter_recipe_notnull through queryset
                         else queryset))))
        | None => Raise (ValueError (Py.int_error s))
        end
    | None =>
        Ok (QuerySet.distinct
              (QuerySet.order_by_desc_str attr_name
                 (filter (λ a, attr_user a = Request.user request) queryset)))
    end.
Proof.
  unfold BaseRecipeAttrViewSet.get_queryset.
  destruct (Request.query_params request !! "assigned_only") as [s|]; [|done].
  unfold Py.int. by destruct (Py.parse_int s).
Qed.

Lemma filter_notnull_row through (a : A) :
  Forall (λ a', a' = a) (QuerySet.filter_recipe_notnull through [a]).
Proof.
  unfold QuerySet.filter_recipe_notnull. simpl. rewrite app_nil_r.
  induction through as [|l through IH]; simpl; [constructor|].
  apply Forall_app. split; [|done].
  case_bool_decide; by repeat constructor.
Qed.

Lemma filter_notnull_cons through (a : A) qs :
  QuerySet.filter_recipe_notnull through (a :: qs)
  = QuerySet.filter_recipe_notnull through [a] ++ QuerySet.filter_recipe_notnull through qs.
Proof. unfold QuerySet.filter_recipe_notnull. simpl. by rewrite app_nil_r. Qed.

Lemma filter_notnull_filter (P : A → Prop) `{∀ a, Decision (P a)} through qs :
  filter P (QuerySet.filter_recipe_notnull through qs)
  = QuerySet.filter_recipe_notnull through (filter P qs).
Proof.
  induction qs as [|a qs IH]; [done|].
  rewrite filter_notnull_cons, filter_app, IH, filter_cons.
  assert (filter P (QuerySet.filter_recipe_notnull through [a])
          = if decide (P a) then QuerySet.filter_recipe_notnull through [a] else [])
    as ->.
  { pose proof (filter_notnull_row through a) as Hrow.
    induction Hrow as [|a' l -> _ IHl]; [by case_decide|].
    rewrite filter_cons, IHl. by repeat case_decide. }
  case_decide; [by rewrite <- filter_notnull_cons|done].
Qed.

(** The attribute list computed on the caller's rows alone. *)
Lemma attr_get_queryset_own_rows (queryset : list A) through request :
  BaseRecipeAttrViewSet.get_queryset queryset through request
  = BaseRecipeAttrViewSet.get_queryset
      (filter (λ a, attr_user a = Request.user request) queryset) through request.
Proof.
  rewrite !attr_get_queryset_parsed.
  destruct (Request.query_params request !! "assigned_only") as [s|].
  - destruct (Py.parse_int s) as [n|]; [|done].
    case_bool_decide.
    + by rewrite <- filter_notnull_filter, list_filter_filter_l by done.
    + by rewrite list_filter_filter_l by done.
  - by rewrite list_filter_filter_l by done.
Qed.

End attr_facts.

(** X13. An ASCII [assigned_only] value that is not an integer literal,
    the empty value and the word [true] included, raises [ValueError] in
    both attribute lists; no response is made for it. *)
Theorem assigned_only_not_integer (db : DB) (request : Request.t) (s : string) :
  Request.query_params request !! "assigned_only" = Some s →
  Py.is_ascii s = true →
  Py.parse_int s = None →
  ∃ e, is_ValueError e ∧
       TagViewSet.get_queryset db request = Raise e ∧
       IngredientViewSet.get_queryset db request = Raise e ∧
       dispatch (TagViewSet.get_queryset db request) = ServerError e ∧
       dispatch (IngredientViewSet.get_queryset db request) = ServerError e.
Proof.
  intros Hs _ Hbad. eexists. split; [|split; [|split]].
  2,3: unfold TagViewSet.get_queryset, IngredientViewSet.get_queryset;
       rewrite attr_get_queryset_parsed, Hs, Hbad; reflexivity.
  - exact I.
  - unfold TagViewSet.get_queryset, IngredientViewSet.get_queryset.
    rewrite !attr_get_queryset_parsed, Hs, Hbad. by split.
Qed.

Lemma assigned_only_not_integer_witness :
  let request := Sample.get Sample.alice [("assigned_only", "true")] in
  Request.query_params request !! "assigned_only" = Some "true" ∧
  Py.is_ascii "true" = true ∧
  Py.parse_int "true" = None ∧
  ∃ e, is_ValueError e ∧
       TagViewSet.get_queryset Sample.db request = Raise e ∧
       IngredientViewSet.get_queryset Sample.db request = Raise e ∧
       dispatch (TagViewSet.get_queryset Sample.db request) = ServerError e ∧
       dispatch (IngredientViewSet.get_queryset Sample.db request) = ServerError e.
Proof.
  intros request. split; [reflexivity|]. split; [reflexivity|]. split; [reflexivity|].
  exact (assigned_only_not_integer Sample.db request "true" eq_refl eq_refl eq_refl).
Defined.

(** X14. Any ASCII integer literal is accepted for [assigned_only] and
    only whether it is zero matters: a non-zero value lists what [1] lists,
    a zero value what a request without the parameter lists. *)
Theorem assigned_only_any_integer (db : DB) (request : Request.t) (s : string) (n : Z) :
  Request.query_params request !! "assigned_only" = Some s →
  Py.is_ascii s = true →
  Py.parse_int s = Some n →
  let canonical :=
    Request.mk (Request.user request)
      (if bool_decide (n ≠ 0) then {[ "assigned_only" := "1" ]} else ∅)
      (Request.data request) in
  TagViewSet.get_queryset db request = TagViewSet.get_queryset db canonical ∧
  IngredientViewSet.get_queryset db request
    = IngredientViewSet.get_queryset db canonical.
Proof.
  intros Hs _ Hn canonical.
  unfold TagViewSet.get_queryset, IngredientViewSet.get_queryset.
  rewrite !attr_get_queryset_parsed, Hs, Hn. unfold canonical. simpl.
  case_bool_decide.
  - rewrite lookup_singleton_eq. split; reflexivity.
  - by rewrite lookup_empty.
Qed.

Lemma assigned_only_any_integer_witness :
  let request := Sample.get Sample.alice [("assigned_only", " -2 ")] in
  Request.query_params request !! "assigned_only" = Some " -2 " ∧
  Py.is_ascii " -2 " = true ∧
  Py.parse_int " -2 " = Some (-2) ∧
  TagViewSet.get_queryset Sample.db request
    = TagViewSet.get_queryset Sample.db
        (Request.mk Sample.alice {[ "assigned_only" := "1" ]} ∅) ∧
  IngredientViewSet.get_queryset Sample.db request
    = IngredientViewSet.get_queryset Sample.db
        (Request.mk Sample.alice {[ "assigned_only" := "1" ]} ∅).
Proof.
  intros request. split; [reflexivity|]. split; [reflexivity|]. split; [reflexivity|].
  exact (assigned_only_any_integer Sample.db request " -2 " (-2) eq_refl eq_refl eq_refl).
Defined.

(** X15. The tag list and the ingredient list of a caller are functions of
    the caller's own rows of that table and of its association table: on two
    database states that agree on these, every request of that caller has the
    same outcome, and recipes (whose owner is never consulted) matter only
    through their links. *)
Theorem attr_list_own_rows_only (db1 db2 : DB) (request : Request.t) :
  (filter (λ t, Tag.user t = Request.user request) (tags db1)
     = filter (λ t, Tag.user t = Request.user request) (tags db2) →
   recipe_tags db1 = recipe_tags db2 →
   TagViewSet.get_queryset db1 request = TagViewSet.get_queryset db2 request) ∧
  (filter (λ i, Ingredient.user i = Request.user request) (ingredients db1)
     = filter (λ i, Ingredient.user i = Request.user request) (ingredients db2) →
   recipe_ingredients db1 = recipe_ingredients db2 →
   IngredientViewSet.get_queryset db1 request
     = IngredientViewSet.get_queryset db2 request).
Proof.
  split; intros Hown Hlinks.
  - unfold TagViewSet.get_queryset.
    rewrite (attr_get_queryset_own_rows (tags db1)),
      (attr_get_queryset_own_rows (tags db2)).
    simpl. by rewrite Hown, Hlinks.
  - unfold IngredientViewSet.get_queryset.
    rewrite (attr_get_queryset_own_rows (ingredients db1)),
      (attr_get_queryset_own_rows (ingredients db2)).
    simpl. by rewrite Hown, Hlinks.
Qed.

Lemma attr_list_own_rows_only_witness :
  let db2 := mkDB [] [Sample.vegan; Sample.dinner; Sample.spicy; Sample.dessert] []
                  (recipe_tags Sample.db) [] in
  let request := Sample.get Sample.alice [("assigned_only", "1")] in
  filter (λ t, Tag.user t = Request.user request) (tags Sample.db)
    = filter (λ t, Tag.user t = Request.user request) (tags db2) ∧
  recipe_tags Sample.db = recipe_tags db2 ∧
  TagViewSet.get_queryset Sample.db request = TagViewSet.get_queryset db2 request.
Proof.
  intros db2 request.
  assert (filter (λ t, Tag.user t = Request.user request) (tags Sample.db)
          = filter (λ t, Tag.user t = Request.user request) (tags db2)) as Hown
    by (vm_compute; reflexivity).
  split; [exact Hown|]. split; [reflexivity|].
  exact (proj1 (attr_list_own_rows_only Sample.db db2 request) Hown eq_refl).
Defined.

(** ** More on the user manager *)

Lemma setdefault_insert k v (d : gmap string value) :
  d !! k = None ∨ d !! k = Some v → setdefault k v d = <[k := v]> d.
Proof.
  unfold setdefault. intros [Hk|Hk]; rewrite Hk; [done|].
  by rewrite insert_id.
Qed.

(** X16. The two flag tests of [create_superuser], case by case: a given
    [is_staff] other than the object [True] (so also [1] or [None]) raises
    the [is_staff] error; otherwise a given [is_superuser] other than [True]
    raises the [is_superuser] error; otherwise the call is [create_user] with
    both flags [True]. *)
Theorem create_superuser_flags (make_password : option string → string)
    (is_datetime : string → bool)
    (db : list User) (email : string) (password : option string)
    (extra_fields : gmap string value) :
  (∀ v, extra_fields !! "is_staff" = Some v → v ≠ VBool true →
        create_superuser make_password is_datetime db email password extra_fields
        = Raise (ValueError "Superuser must have is_staff=True.")) ∧
  (extra_fields !! "is_staff" = None ∨ extra_fields !! "is_staff" = Some (VBool true) →
   (∀ v, extra_fields !! "is_superuser" = Some v → v ≠ VBool true →
         create_superuser make_password is_datetime db email password extra_fields
         = Raise (ValueError "Superuser must have is_superuser=True.")) ∧
   (extra_fields !! "is_superuser" = None ∨
    extra_fields !! "is_superuser" = Some (VBool true) →
    create_superuser make_password is_datetime db email password extra_fields
    = create_user make_password is_datetime db email password
        (<["is_superuser" := VBool true]> (<["is_staff" := VBool true]> extra_fields)))).
Proof.
  split.
  - intros v Hst Hv. unfold create_superuser.
    assert (setdefault "is_staff" (VBool true) extra_fields = extra_fields) as ->
      by (unfold setdefault; by rewrite Hst).
    rewrite bool_decide_eq_true_2; [done|].
    unfold setdefault. destruct (extra_fields !! "is_superuser").
    + rewrite Hst. by intros [= ->].
    + rewrite lookup_insert_ne by done. rewrite Hst. by intros [= ->].
  - intros Hst. unfold create_superuser.
    rewrite (setdefault_insert "is_staff") by done.
    assert (∀ d : gmap string value,
              <["is_staff" := VBool true]> d !! "is_superuser" = d !! "is_superuser")
      as Hne by (intros d; by rewrite lookup_insert_ne).
    split.
    + intros v Hsu Hv.
      assert (setdefault "is_superuser" (VBool true)
                (<["is_staff" := VBool true]> extra_fields)
              = <["is_staff" := VBool true]> extra_fields) as ->
        by (unfold setdefault; by rewrite Hne, Hsu).
      rewrite lookup_insert_eq.
      rewrite (bool_decide_eq_false_2 (Some (VBool true) ≠ Some (VBool true)))
        by (by intros ?).
      rewrite bool_decide_eq_true_2; [done|].
      rewrite Hne, Hsu. by intros [= ->].
    + intros Hsu. rewrite (setdefault_insert "is_superuser") by (by rewrite Hne).
      rewrite lookup_insert_ne by done. rewrite !lookup_insert_eq.
      by rewrite !(bool_decide_eq_false_2 (Some (VBool true) ≠ Some (VBool true)))
        by (by intros ?).
Qed.

Lemma create_superuser_flags_witness :
  let extra_fields : gmap string value :=
    {[ "is_staff" := VBool true; "is_superuser" := VInt 1 ]} in
  (extra_fields !! "is_staff" = None ∨ extra_fields !! "is_staff" = Some (VBool true)) ∧
  extra_fields !! "is_superuser" = Some (VInt 1) ∧ VInt 1 ≠ VBool true ∧
  create_superuser Sample.make_password Sample.is_datetime Sample.users "root@example.org" (Some "pw")
    extra_fields
  = Raise (ValueError "Superuser must have is_superuser=True.").
Proof.
  intros extra_fields.
  assert (extra_fields !! "is_staff" = None ∨
          extra_fields !! "is_staff" = Some (VBool true)) as Hst
    by (right; reflexivity).
  assert (VInt 1 ≠ VBool true) as Hv by discriminate.
  split; [exact Hst|]. split; [reflexivity|]. split; [exact Hv|].
  destruct (create_superuser_flags Sample.make_password Sample.is_datetime Sample.users
              "root@example.org" (Some "pw") extra_fields) as [_ Hrest].
  exact (proj1 (Hrest Hst) (VInt 1) eq_refl Hv).
Defined.

(** X17. A user [create_user] returns carries the extra fields as given
    and the model's defaults for the rest: without overrides it is active,
    not staff and not superuser; [id] is an assigned integer, and no [email]
    keyword can have been among the extra fields. *)
Theorem create_user_fields (make_password : option string → string)
    (is_datetime : string → bool)
    (db : list User) (email : string) (password : option string)
    (extra_fields : gmap string value) (db' : list User) (u : User) :
  create_user make_password is_datetime db email password extra_fields = Ok (db', u) →
  (extra_fields !! "is_active" = None → u !! "is_active" = Some (VBool true)) ∧
  (extra_fields !! "is_staff" = None → u !! "is_staff" = Some (VBool false)) ∧
  (extra_fields !! "is_superuser" = None → u !! "is_superuser" = Some (VBool false)) ∧
  (∀ k v, extra_fields !! k = Some v → k ≠ "id" → k ≠ "password" →
          u !! k = Some v) ∧
  extra_fields !! "email" = None ∧
  ∃ n, u !! "id" = Some (VInt n).
Proof.
  intros Hc.
  destruct (create_user_returns _ _ _ _ _ _ _ _ Hc) as (Hne & _ & _ & _ & Hk).
  assert (extra_fields !! "email" = None) as He.
  { rewrite create_user_nonempty in Hc by done. unfold model in Hc.
    by destruct (extra_fields !! "email"). }
  split; [|split; [|split; [|split; [|split]]]].
  - intros Hn. rewrite Hk by done. by rewrite lookup_union_r.
  - intros Hn. rewrite Hk by done. by rewrite lookup_union_r.
  - intros Hn. rewrite Hk by done. by rewrite lookup_union_r.
  - intros k v Hv ??.
    assert (k ≠ "email") by (intros ->; congruence).
    rewrite Hk by done. by apply lookup_union_Some_l.
  - done.
  - rewrite create_user_nonempty in Hc by done.
    destruct (model _ _) as [u0|]; simpl in Hc; [|done].
    apply save_returns in Hc as [_ [n ->]].
    exists n. by rewrite lookup_insert_eq.
Qed.

Lemma create_user_fields_witness :
  ∃ db' u,
    create_user Sample.make_password Sample.is_datetime Sample.users "dan@example.org" (Some "pw")
      {[ "name" := VStr "Dan" ]} = Ok (db', u) ∧
    u !! "is_active" = Some (VBool true) ∧
    u !! "is_staff" = Some (VBool false) ∧
    u !! "name" = Some (VStr "Dan") ∧
    ∃ n, u !! "id" = Some (VInt n).
Proof.
  destruct (create_user Sample.make_password Sample.is_datetime Sample.users "dan@example.org"
              (Some "pw") {[ "name" := VStr "Dan" ]}) as [[db' u]|e] eqn:Hc;
    [|by vm_compute in Hc].
  exists db', u. split; [reflexivity|].
  destruct (create_user_fields Sample.make_password Sample.is_datetime Sample.users "dan@example.org"
              (Some "pw") {[ "name" := VStr "Dan" ]} db' u Hc)
    as (Hact & Hst & _ & Hgiven & _ & Hid).
  split; [exact (Hact eq_refl)|]. split; [exact (Hst eq_refl)|].
  split; [|exact Hid].
  apply (Hgiven "name" (VStr "Dan")); [reflexivity|discriminate|discriminate].
Defined.

Lemma fresh_pk_gt (table : list User) row k :
  row ∈ table → row !! "id" = Some (VInt k) → k < UserModel.fresh_pk table.
Proof.
  unfold UserModel.fresh_pk. intros Hin Hid.
  assert (k ≤ foldr (λ row m, match row !! "id" with
                              | Some (VInt k) => Z.max k m | _ => m end) 0 table);
    [|lia].
  induction Hin as [row table|row row' table Hin IH]; simpl.
  - rewrite Hid. lia.
  - specialize (IH Hid). destruct (row' !! "id") as [[]|]; lia.
Qed.

(** X18. The address is unique up to normalization: once [create_user] has
    stored a user under an ASCII address, a second [create_user] whose ASCII
    email normalizes to the same address (it may differ in the case of the
    domain or in surrounding blanks) fails in [save] with the integrity
    error of the unique column, for any password and any accepted extra
    fields. *)
Theorem create_user_duplicate (make_password : option string → string)
    (is_datetime : string → bool)
    (db : list User) (email1 email2 : string) (password1 password2 : option string)
    (extra1 extra2 : gmap string value) (db' : list User) (u : User) :
  create_user make_password is_datetime db email1 password1 extra1 = Ok (db', u) →
  Py.is_ascii email1 = true →
  Py.is_ascii email2 = true →
  email2 ≠ EmptyString →
  normalize_email email2 = normalize_email email1 →
  accepted extra2 →
  create_user make_password is_datetime db' email2 password2 extra2
  = Raise (IntegrityError "UNIQUE constraint failed: core_user.email").
Proof.
  intros Hc _ _ Hne Hnorm Hacc.
  destruct (create_user_returns _ _ _ _ _ _ _ _ Hc) as (Hne1 & Hin & Hue & _ & _).
  assert (∃ k0, u !! "id" = Some (VInt k0)) as [k0 Hk0].
  { rewrite create_user_nonempty in Hc by done.
    destruct (model _ _) as [u0|]; simpl in Hc; [|done].
    apply save_returns in Hc as [_ [n ->]]. exists n. by rewrite lookup_insert_eq. }
  rewrite create_user_nonempty by done.
  destruct (model_prepared make_password (normalize_email email2) password2 _ Hacc)
    as (u0 & -> & Hprep & Hu2e).
  simpl. rewrite save_prepared by done. simpl.
  rewrite bool_decide_eq_true_2; [done|].
  apply Exists_exists. exists u. split; [|by rewrite Hue, Hu2e, Hnorm].
  apply list_elem_of_filter. split; [|done].
  unfold UserModel.has_pk. rewrite Hk0. intros Hpk.
  apply bool_decide_unpack in Hpk. injection Hpk as Hpk.
  pose proof (fresh_pk_gt db' u k0 Hin Hk0). lia.
Qed.

Lemma create_user_duplicate_witness :
  Py.is_ascii "Bob@EXAMPLE.Com" = true ∧
  Py.is_ascii "Bob@example.COM " = true ∧
  "Bob@example.COM " ≠ EmptyString ∧
  normalize_email "Bob@example.COM " = normalize_email "Bob@EXAMPLE.Com" ∧
  accepted ∅ ∧
  ∃ db' u,
    create_user Sample.make_password Sample.is_datetime Sample.users "Bob@EXAMPLE.Com" (Some "pw") ∅
      = Ok (db', u) ∧
    create_user Sample.make_password Sample.is_datetime db' "Bob@example.COM " None ∅
      = Raise (IntegrityError "UNIQUE constraint failed: core_user.email").
Proof.
  assert ("Bob@example.COM " ≠ EmptyString) as Hne by discriminate.
  assert (normalize_email "Bob@example.COM " = normalize_email "Bob@EXAMPLE.Com")
    as Hnorm by reflexivity.
  split; [reflexivity|]. split; [reflexivity|].
  split; [exact Hne|]. split; [exact Hnorm|]. split; [exact accepted_empty|].
  destruct (create_user Sample.make_password Sample.is_datetime Sample.users
              "Bob@EXAMPLE.Com" (Some "pw") ∅) as [[db' u]|e] eqn:Hc;
    [|by vm_compute in Hc].
  exists db', u. split; [reflexivity|].
  exact (create_user_duplicate Sample.make_password Sample.is_datetime Sample.users
           "Bob@EXAMPLE.Com" "Bob@example.COM " (Some "pw") None ∅ ∅ db' u Hc
           eq_refl eq_refl Hne Hnorm accepted_empty).
Defined.

(** ** The stored path of an uploaded image *)

Lemma string_app_assoc (a b c : string) : (a +:+ b) +:+ c = a +:+ (b +:+ c).
Proof. unfold String.app. induction a as [|x a IH]; simpl; [done|by rewrite IH]. Qed.

Lemma string_app_nil_r (a : string) : a +:+ "" = a.
Proof. unfold String.app. induction a as [|x a IH]; simpl; [done|by rewrite IH]. Qed.

Lemma string_length_app (a b : string) :
  String.length (a +:+ b) = (String.length a + String.length b)%nat.
Proof. unfold String.app. induction a as [|x a IH]; simpl; [done|by rewrite IH]. Qed.

Lemma count_char_app c (a b : string) :
  count_char c (a +:+ b) = (count_char c a + count_char c b)%nat.
Proof.
  unfold String.app. induction a as [|x a IH]; simpl; [done|]. rewrite IH. lia.
Qed.

Lemma substring_all (a : string) : String.substring 0 (String.length a) a = a.
Proof. induction a as [|x a IH]; simpl; [done|by rewrite IH]. Qed.

Lemma substring_prefix (a b : string) :
  String.substring 0 (String.length a) (a +:+ b) = a.
Proof.
  unfold String.app. induction a as [|x a IH]; simpl; [by destruct b|by rewrite IH].
Qed.

Lemma substring_suffix (a b : string) :
  String.substring (String.length a) (String.length b) (a +:+ b) = b.
Proof.
  unfold String.app. induction a as [|x a IH]; simpl; [apply substring_all|done].
Qed.

Lemma slice_prefix (a b : string) :
  os_path.slice 0 (Z.of_nat (String.length a)) (a +:+ b) = a.
Proof.
  unfold os_path.slice. rewrite Z.sub_0_r, Nat2Z.id. apply substring_prefix.
Qed.

Lemma slice_suffix (a b : string) :
  os_path.slice (Z.of_nat (String.length a)) (Z.of_nat (String.length (a +:+ b)))
    (a +:+ b) = b.
Proof.
  unfold os_path.slice. rewrite string_length_app, Nat2Z.id.
  replace (Z.to_nat _) with (String.length b) by lia. apply substring_suffix.
Qed.

Lemma rfind_from_absent i c p :
  count_char c p = O → os_path.rfind_from i c p = -1.
Proof.
  revert i. induction p as [|d p IH]; intros i; simpl; [done|].
  case_decide as Hd; [done|]. intros Hc. rewrite IH by done.
  by repeat case_decide.
Qed.

Lemma rfind_from_last i c (a b : string) :
  0 ≤ i → count_char c b = O →
  os_path.rfind_from i c (a +:+ String c b) = i + Z.of_nat (String.length a).
Proof.
  unfold String.app. revert i. induction a as [|d a IH]; intros i Hi Hb; simpl.
  - rewrite rfind_from_absent by done.
    rewrite !decide_True by done. lia.
  - rewrite IH by (done || lia). rewrite decide_False by lia. lia.
Qed.

(** A character that occurs has a last occurrence. *)
Lemma last_occurrence c (p : string) :
  count_char c p ≠ O → ∃ a b, p = a +:+ String c b ∧ count_char c b = O.
Proof.
  unfold String.app. induction p as [|d p IH]; simpl; [done|]. intros Hc.
  destruct (decide (count_char c p = O)) as [Hp|Hp].
  - case_decide as Hd; [|lia]. subst d. by exists "", p.
  - destruct (IH Hp) as (a & b & -> & Hb). by exists (String d a), b.
Qed.

Lemma rfind_bounds c (p : string) :
  (count_char c p = O ∧ os_path.rfind c p = -1) ∨
  (∃ a b, p = a +:+ String c b ∧ count_char c b = O ∧
          os_path.rfind c p = Z.of_nat (String.length a)).
Proof.
  destruct (decide (count_char c p = O)) as [Hp|Hp].
  - left. split; [done|]. by apply rfind_from_absent.
  - right. destruct (last_occurrence c p Hp) as (a & b & -> & Hb).
    exists a, b. split; [done|]. split; [done|].
    unfold os_path.rfind. rewrite rfind_from_last by done. lia.
Qed.

(** [splitext] splits, and what it splits off is an extension. *)
Lemma splitext_parts (p : string) :
  ∃ root ext,
    os_path.splitext p = (root, ext) ∧ root +:+ ext = p ∧
    (ext = EmptyString ∨
     ∃ b, ext = String "." b ∧ count_char "." b = O ∧ count_char "/" b = O).
Proof.
  unfold os_path.splitext.
  destruct (rfind_bounds "." p) as [[Hnd Hd]|(a & b & Hp & Hb & Hd)].
  - rewrite Hd. rewrite andb_false_intro1; cycle 1.
    { apply bool_decide_eq_false_2.
      destruct (rfind_bounds "/" p) as [[_ ->]|(? & ? & _ & _ & ->)]; lia. }
    exists p, "". split; [done|]. split; [apply string_app_nil_r|by left].
  - destruct (bool_decide _ && _) eqn:Hcond.
    + apply andb_prop in Hcond as [Hgt _]. apply bool_decide_eq_true_1 in Hgt.
      rewrite Hd in *. subst p.
      exists a, (String "." b). rewrite slice_prefix, slice_suffix.
      split; [done|]. split; [done|]. right. exists b.
      split; [done|]. split; [done|].
      destruct (decide (count_char "/" b = O)) as [|Hsep]; [done|]. exfalso.
      destruct (last_occurrence "/" b Hsep) as (b1 & b2 & -> & Hb2).
      assert (a +:+ String "." (b1 +:+ String "/" b2)
              = (a +:+ String "." b1) +:+ String "/" b2) as Heq
        by (by rewrite string_app_assoc).
      rewrite Heq in Hgt. unfold os_path.rfind in Hgt.
      rewrite rfind_from_last in Hgt by done.
      rewrite string_length_app in Hgt. simpl in Hgt. lia.
    + exists p, "". split; [done|]. split; [apply string_app_nil_r|by left].
Qed.

(** X19. The stored path of an upload is [uploads/recipe/], the drawn
    identifier, and the extension of the uploaded name: a suffix of that
    name that is empty or a dot followed by characters other than dot and
    slash. Nothing else of the client's file name reaches the path, so with
    an identifier free of slashes the path has exactly the two slashes of its
    fixed directory. *)
Theorem recipe_image_file_path_shape (uuid filepath : string) :
  ∃ root ext,
    recipe_image_file_path uuid filepath = "uploads/recipe/" +:+ uuid +:+ ext ∧
    root +:+ ext = filepath ∧
    (ext = EmptyString ∨
     ∃ b, ext = String "." b ∧ count_char "." b = O ∧ count_char "/" b = O) ∧
    (count_char "." filepath = O → ext = EmptyString) ∧
    (count_char "/" uuid = O →
     count_char "/" (recipe_image_file_path uuid filepath) = 2%nat).
Proof.
  destruct (splitext_parts filepath) as (root & ext & Hs & Hcat & Hext).
  exists root, ext.
  assert (recipe_image_file_path uuid filepath = "uploads/recipe/" +:+ uuid +:+ ext)
    as Hpath.
  { unfold recipe_image_file_path, os_path.join3. rewrite Hs. reflexivity. }
  split; [exact Hpath|]. split; [exact Hcat|]. split; [exact Hext|]. split.
  - intros Hnd. destruct Hext as [|(b & -> & _)]; [done|].
    rewrite <- Hcat, count_char_app in Hnd. simpl in Hnd. lia.
  - intros Hu. rewrite Hpath, !count_char_app, Hu.
    destruct Hext as [->|(b & -> & _ & Hb)]; simpl; [done|].
    rewrite Hb. done.
Qed.

Lemma recipe_image_file_path_shape_witness :
  count_char "/" "u-1" = O ∧
  ∃ root ext,
    recipe_image_file_path "u-1" "../../etc/photo.tar.GZ"
      = "uploads/recipe/" +:+ "u-1" +:+ ext ∧
    root +:+ ext = "../../etc/photo.tar.GZ" ∧
    count_char "/" (recipe_image_file_path "u-1" "../../etc/photo.tar.GZ") = 2%nat.
Proof.
  split; [reflexivity|].
  destruct (recipe_image_file_path_shape "u-1" "../../etc/photo.tar.GZ")
    as (root & ext & Hpath & Hcat & _ & _ & Hslashes).
  exists root, ext. split; [exact Hpath|]. split; [exact Hcat|].
  exact (Hslashes eq_refl).
Defined.

Example image_path_traversal :
  recipe_image_file_path "u-1" "../../etc/photo.tar.GZ" = "uploads/recipe/u-1.GZ".
Proof. reflexivity. Qed.

(** ** What [create_superuser] can return *)

(** X20. Whatever extra fields it is given, a user that [create_superuser]
    returns is stored and has [is_staff] and [is_superuser] equal to [True]:
    no combination of keywords yields a superuser without either flag. *)
Theorem create_superuser_always_flagged (make_password : option string → string)
    (is_datetime : string → bool)
    (db : list User) (email : string) (password : option string)
    (extra_fields : gmap string value) (db' : list User) (u : User) :
  create_superuser make_password is_datetime db email password extra_fields = Ok (db', u) →
  u ∈ db' ∧
  u !! "is_staff" = Some (VBool true) ∧ u !! "is_superuser" = Some (VBool true).
Proof.
  unfold create_superuser.
  set (forced := setdefault "is_superuser" _ (setdefault "is_staff" _ _)).
  case_bool_decide as Hst; [done|]. case_bool_decide as Hsu; [done|].
  intros Hc.
  destruct (create_user_returns _ _ _ _ _ _ _ _ Hc) as (_ & Hin & _ & _ & Hk).
  split; [done|]. rewrite !Hk by done.
  destruct (decide (forced !! "is_staff" = Some (VBool true))) as [Hst'|]; [|done].
  destruct (decide (forced !! "is_superuser" = Some (VBool true))) as [Hsu'|]; [|done].
  split; by apply lookup_union_Some_l.
Qed.

Lemma create_superuser_always_flagged_witness :
  ∃ db' u,
    create_superuser Sample.make_password Sample.is_datetime Sample.users "root@example.org" None
      {[ "is_staff" := VBool true; "name" := VStr "Root" ]} = Ok (db', u) ∧
    u ∈ db' ∧
    u !! "is_staff" = Some (VBool true) ∧ u !! "is_superuser" = Some (VBool true).
Proof.
  destruct (create_superuser Sample.make_password Sample.is_datetime Sample.users "root@example.org"
              None {[ "is_staff" := VBool true; "name" := VStr "Root" ]})
    as [[db' u]|e] eqn:Hc; [|by vm_compute in Hc].
  exists db', u. split; [reflexivity|].
  exact (create_superuser_always_flagged Sample.make_password Sample.is_datetime Sample.users
           "root@example.org" None _ db' u Hc).
Defined.
